(** * inFlow inventory client: cache layer, serial indexes and the remote gateway

    A shallow embedding of [src/scripts/mcp-client.ts] and of the
    read-modify-write flows of [src/scripts/cli.ts].

    Modelling conventions.
    - JSON-like payloads are the inductive [json].
    - Strings are [String.string]; characters are modelled as 7-bit ASCII
      code units, on which JavaScript's [trim] (ASCII white space: TAB, LF,
      VT, FF, CR, SPACE) and [toUpperCase] (a-z to A-Z) are exact.
    - The serial indexes, JavaScript plain objects keyed by strings, are
      [gmap string _]; the [Map] of [getSalesOrderSerials], whose insertion
      order is observable through [Array.from(map.values())], is an
      insertion-ordered list.
    - Effects of the client (the cache store, the [cacheDisabled] flag, the
      gateway calls) are threaded through a small state and error monad. *)

From Stdlib Require Import ZArith Ascii String List Bool Lia.
From stdpp Require Import base gmap strings list.
Import ListNotations.

Open Scope bool_scope.
Set Warnings "-register-all".

(* ================================================================= *)
(** ** JSON-like values *)

Inductive json : Type :=
| JNull
| JBool (b : bool)
| JNum (z : Z)
| JStr (s : string)
| JArr (xs : list json)
| JObj (fields : list (string * json)).

(* ================================================================= *)
(** ** Serial normalisation: [serial.trim().toUpperCase()] *)

Definition is_ws (c : ascii) : bool :=
  let n := nat_of_ascii c in Nat.eqb n 32 || (Nat.leb 9 n && Nat.leb n 13).

Fixpoint drop_ws (l : list ascii) : list ascii :=
  match l with
  | [] => []
  | c :: r => if is_ws c then drop_ws r else l
  end.

(** [String.prototype.trim]: white space removed at both ends. *)
Definition trim (s : string) : string :=
  string_of_list_ascii
    (rev (drop_ws (rev (drop_ws (list_ascii_of_string s))))).

Definition upper_char (c : ascii) : ascii :=
  let n := nat_of_ascii c in
  if Nat.leb 97 n && Nat.leb n 122 then ascii_of_nat (n - 32) else c.

(** [String.prototype.toUpperCase]. *)
Definition toUpperCase (s : string) : string :=
  string_of_list_ascii (map upper_char (list_ascii_of_string s)).

Definition normalize (s : string) : string := toUpperCase (trim s).

Example normalize_ex : normalize " abc123 " = "ABC123"%string.
Proof. reflexivity. Qed.

(* ================================================================= *)
(** ** Sales orders as returned by [list_sales_orders] / [get_sales_order] *)

(** A line of [lines], [pickLines] or [packLines]; [serialNumbers] is
    [line.quantity?.serialNumbers] when it is an array, [None] otherwise. *)
Record so_line := mk_line {
  productId : string;
  serialNumbers : option (list string)
}.

(** A sales order; an absent line array ([order.packLines || []]) is
    the empty list, [custom4] is [order.customFields?.custom4]. *)
Record sales_order := mk_order {
  salesOrderId : string;
  orderNumber : string;
  orderDate : string;
  inventoryStatus : string;
  custom4 : option string;
  packLines : list so_line;
  pickLines : list so_line;
  lines : list so_line
}.

(** The loop shared by both extractors:
    [for (const line of lines || []) { const serialNumbers = ...;
       if (!Array.isArray(serialNumbers)) continue;
       for (const serial of serialNumbers) { if (!serial) continue; body } }] *)
Definition for_each_serial {A : Type} (body : A -> so_line -> string -> A)
    (ls : list so_line) (a : A) : A :=
  fold_left (fun a line =>
    match serialNumbers line with
    | None => a
    | Some sns =>
        fold_left (fun a serial =>
          if String.eqb serial "" then a else body a line serial) sns a
    end) ls a.

(* ================================================================= *)
(** ** [getSalesOrderSerials]: per-order extraction with duplicates *)

(** A value of [serialMap]: [{ serial, productId, sources }]. *)
Record serial_rec := mk_srec {
  sr_serial : string;
  sr_productId : string;
  sr_sources : list string
}.

(** [serialMap.get(serial)] followed by [existing.sources.push(source)] or
    [serialMap.set(serial, {...})]; the map is kept in insertion order and
    keyed by the raw serial string. *)
Definition serialMap_add (source : string) (m : list serial_rec)
    (line : so_line) (serial : string) : list serial_rec :=
  if existsb (fun r => String.eqb (sr_serial r) serial) m
  then map (fun r => if String.eqb (sr_serial r) serial
                     then mk_srec (sr_serial r) (sr_productId r)
                                  (sr_sources r ++ [source])
                     else r) m
  else m ++ [mk_srec serial (productId line) [source]].

Definition extractSerials (lines : list so_line) (source : string)
    (m : list serial_rec) : list serial_rec :=
  for_each_serial (serialMap_add source) lines m.

(** The returned object, restricted to the fields the claims are about. *)
Record order_serials := mk_order_serials {
  os_salesOrderId : string;
  os_orderNumber : string;
  os_orderDate : string;
  os_status : string;
  os_serialCount : nat;
  os_serials : list serial_rec
}.

(** Body of [getSalesOrderSerials] after [getSalesOrder] returned [order]. *)
Definition getSalesOrderSerials_of (order : sales_order) : order_serials :=
  let m := extractSerials (packLines order) "pack" [] in
  let m := extractSerials (pickLines order) "pick" m in
  let m := extractSerials (lines order) "order" m in
  mk_order_serials (salesOrderId order) (orderNumber order) (orderDate order)
    (inventoryStatus order) (length m) m.

(* ================================================================= *)
(** ** [buildSerialIndex]: order-based serial index *)

(** A value of [serialIndex]. *)
Record index_entry := mk_entry {
  ie_serial : string;
  ie_salesOrderId : string;
  ie_orderNumber : string;
  ie_orderDate : string;
  ie_productId : string;
  ie_shopifyOrderUrl : option string
}.

(** [order.customFields?.custom4 || null] *)
Definition shopifyOrderUrl (order : sales_order) : option string :=
  match custom4 order with
  | Some u => if String.eqb u "" then None else Some u
  | None => None
  end.

Definition mk_index_entry (k : string) (order : sales_order) (line : so_line)
    : index_entry :=
  mk_entry k (salesOrderId order) (orderNumber order) (orderDate order)
    (productId line) (shopifyOrderUrl order).

(** Body of the inner loop of [extractFromLines]: only add when absent. *)
Definition index_add (order : sales_order) (serialIndex : gmap string index_entry)
    (line : so_line) (serial : string) : gmap string index_entry :=
  let normalizedSerial := normalize serial in
  match serialIndex !! normalizedSerial with
  | Some _ => serialIndex
  | None => <[normalizedSerial := mk_index_entry normalizedSerial order line]>
              serialIndex
  end.

Definition extractFromLines (ls : list so_line) (order : sales_order)
    (serialIndex : gmap string index_entry) : gmap string index_entry :=
  for_each_serial (index_add order) ls serialIndex.

(** [for (const order of allOrders) { pack; pick; lines }] *)
Definition index_orders (allOrders : list sales_order) : gmap string index_entry :=
  fold_left (fun idx order =>
    extractFromLines (lines order) order
      (extractFromLines (pickLines order) order
        (extractFromLines (packLines order) order idx))) allOrders ∅.

Definition pageSize : nat := 100.

(** [options?.limit]: JavaScript truthiness, [0] is no cap. *)
Definition cap_active (maxOrders : option nat) : option nat :=
  match maxOrders with
  | Some (S _ as m) => Some m
  | _ => None
  end.

Section Pagination.
(** The [list_sales_orders] tool at [{ status, include, count, skip }],
    seen through [result.data || result || []] and the array wrapping:
    the page's order list. *)
Variable list_sales_orders : string -> nat -> nat -> list sales_order.

(** The [while (true)] loop; [fuel] bounds the number of pages ([None]:
    the loop has not stopped within [fuel] pages). *)
Fixpoint fetch_orders (fuel : nat) (status : string) (maxOrders : option nat)
    (skip : nat) (allOrders : list sales_order) : option (list sales_order) :=
  match fuel with
  | O => None
  | S fuel' =>
      let orderList := list_sales_orders status pageSize skip in
      let allOrders := allOrders ++ orderList in
      if Nat.ltb (length orderList) pageSize then Some allOrders
      else match cap_active maxOrders with
           | Some m =>
               if Nat.leb m (length allOrders) then Some (firstn m allOrders)
               else fetch_orders fuel' status maxOrders (skip + pageSize) allOrders
           | None => fetch_orders fuel' status maxOrders (skip + pageSize) allOrders
           end
  end.

(** [options?.status || 'Fulfilled'] *)
Definition status_or_default (status : option string) : string :=
  match status with
  | Some s => if String.eqb s "" then "Fulfilled"%string else s
  | None => "Fulfilled"%string
  end.

(** The orders [buildSerialIndex] indexes. *)
Definition buildSerialIndex_orders (fuel : nat) (status : option string)
    (limit : option nat) : option (list sales_order) :=
  fetch_orders fuel (status_or_default status) limit 0 [].

Definition buildSerialIndex (fuel : nat) (status : option string)
    (limit : option nat) : option (gmap string index_entry) :=
  option_map index_orders (buildSerialIndex_orders fuel status limit).
End Pagination.

(** The object [searchSerial] returns once the index is at hand. *)
Inductive search_result :=
| Found (e : index_entry)
| NotFound (serial : string) (message : string).

Definition searchSerial_in (serialIndex : gmap string index_entry) (serial : string)
    : search_result :=
  let normalizedSerial := normalize serial in
  match serialIndex !! normalizedSerial with
  | Some e => Found e
  | None => NotFound normalizedSerial
      "Serial number not found in fulfilled sales orders. Check Airtable for authoritative serial number data."
  end.

(* ================================================================= *)
(** ** The remote operation gateway: [callTool] *)

(** [new Error(message)]. *)
Inductive js_error := JsError (message : string).

Inductive result (A : Type) :=
| Ok (a : A)
| Err (e : js_error).
Arguments Ok {A} a.
Arguments Err {A} e.

(** An item of [result.content]: [{ type, text? }]. *)
Record content_item := mk_content { ctype : string; ctext : option string }.

(** The answer of the MCP [client.callTool]. *)
Record tool_result := mk_tool_result { isError : bool; content : list content_item }.

Definition content_json (cs : list content_item) : json :=
  JArr (map (fun c => JObj (("type", JStr (ctype c)) ::
                            match ctext c with
                            | Some t => [("text", JStr t)]
                            | None => []
                            end)) cs).

(** [content.find((c) => c.type === "text")] *)
Definition find_text (cs : list content_item) : option content_item :=
  find (fun c => String.eqb (ctype c) "text") cs.

(** [x?.text] as a truthy string. *)
Definition truthy_text (c : option content_item) : option string :=
  match c with
  | Some c => match ctext c with
              | Some t => if String.eqb t "" then None else Some t
              | None => None
              end
  | None => None
  end.

Section Gateway.
(** [JSON.parse]: [None] when it throws. *)
Variable json_parse : string -> option json.

(** [callTool] after [await this.client!.callTool(...)] answered [r]. *)
Definition callTool_response (r : tool_result) : result json :=
  let cs := content r in
  if isError r then
    Err (JsError (match truthy_text (find_text cs) with
                  | Some t => t
                  | None => "Tool call failed"%string
                  end))
  else
    match truthy_text (find_text cs) with
    | Some t => match json_parse t with
                | Some v => Ok v
                | None => Ok (JStr t)
                end
    | None => Ok (content_json cs)
    end.
End Gateway.

(* ================================================================= *)
(** ** JSON field access and truthiness *)

Definition get_field (k : string) (v : json) : option json :=
  match v with
  | JObj fs => match find (fun kv => String.eqb (fst kv) k) fs with
               | Some kv => Some (snd kv)
               | None => None
               end
  | _ => None
  end.

Definition js_truthy (v : option json) : bool :=
  match v with
  | None | Some JNull => false
  | Some (JBool b) => b
  | Some (JNum z) => negb (Z.eqb z 0)
  | Some (JStr s) => negb (String.eqb s "")
  | Some (JArr _) | Some (JObj _) => true
  end.

(* ================================================================= *)
(** ** The cache store ([@local/plugin-cache], not part of [src/]) *)

(** Modelled from the spec: the [CacheEntry] of [PluginCache],
    [{ value, expiresAt }], [expiresAt] in seconds. *)
Record cache_entry := mk_cache_entry { ce_value : json; ce_expiresAt : Z }.

(** Modelled from the spec: the state of the [PluginCache] instance
    [cache] (entries of its namespace, enable switch, hit/miss counters). *)
Record cache_store := mk_store {
  entries : gmap string cache_entry;
  enabled : bool;
  hits : nat;
  misses : nat
}.

Definition set_entries (m : gmap string cache_entry) (s : cache_store) : cache_store :=
  mk_store m (enabled s) (hits s) (misses s).
Definition set_enabled (b : bool) (s : cache_store) : cache_store :=
  mk_store (entries s) b (hits s) (misses s).
Definition count_hit (s : cache_store) : cache_store :=
  mk_store (entries s) (enabled s) (S (hits s)) (misses s).
Definition count_miss (s : cache_store) : cache_store :=
  mk_store (entries s) (enabled s) (hits s) (S (misses s)).

(** Modelled from the spec: [invalidatePattern(/^p/)] removes every entry
    whose key starts with [p]. *)
Definition invalidate_prefix (p : string) (s : cache_store) : cache_store :=
  set_entries (filter (fun kv => String.prefix p kv.1 = false) (entries s)) s.

(** TTL tiers of [TTL], in seconds. *)
Definition FIVE_MINUTES : Z := 300.
Definition FIFTEEN_MINUTES : Z := 900.
Definition HOUR : Z := 3600.

(* ================================================================= *)
(** ** The client: state and error monad *)

(** The [InFlowMCPClient] instance with the module-level [cache]: the
    [cacheDisabled] flag, the cache store, the clock, and the log of the
    remote calls made ([name], [args]). *)
Record client_state := mk_client {
  cacheDisabled : bool;
  store : cache_store;
  now : Z;
  calls : list (string * json)
}.

Definition set_store (s : cache_store) (c : client_state) : client_state :=
  mk_client (cacheDisabled c) s (now c) (calls c).
Definition set_now (t : Z) (c : client_state) : client_state :=
  mk_client (cacheDisabled c) (store c) t (calls c).
Definition log_call (name : string) (args : json) (c : client_state) : client_state :=
  mk_client (cacheDisabled c) (store c) (now c) (calls c ++ [(name, args)]).

Definition M (A : Type) : Type := client_state -> result A * client_state.

Definition ret {A} (a : A) : M A := fun c => (Ok a, c).
Definition throw {A} (msg : string) : M A := fun c => (Err (JsError msg), c).
Definition bind {A B} (m : M A) (k : A -> M B) : M B :=
  fun c => match m c with
           | (Ok a, c') => k a c'
           | (Err e, c') => (Err e, c')
           end.
Definition modify (f : client_state -> client_state) : M unit :=
  fun c => (Ok tt, f c).
Definition gets {A} (f : client_state -> A) : M A := fun c => (Ok (f c), c).

Notation "'let*' x ':=' m 'in' k" := (bind m (fun x => k))
  (at level 200, x name, m at level 100, k at level 200) : type_scope.
Notation "m ';;;' k" := (bind m (fun _ => k)) (at level 100, right associativity)
  : type_scope.
Open Scope type_scope.

(** Modelled from the spec: [cache.getOrFetch(key, producer, { ttl,
    bypassCache })]. A hit needs the switch on, no bypass, and
    [now < expiresAt]; an expired entry is evicted at the read; a miss
    counts, runs the producer and stores its value with expiry
    [now + ttl]; a failing producer propagates and stores nothing; with
    the switch off or [bypassCache] the producer runs and the store is
    neither read nor written. *)
Definition getOrFetch (key : string) (producer : M json) (ttl : Z)
    (bypassCache : bool) : M json :=
  fun c =>
    let s := store c in
    if enabled s && negb bypassCache then
      let fetch (s0 : cache_store) :=
        let t := now c in
        match producer (set_store (count_miss s0) c) with
        | (Ok v, c') =>
            (Ok v, set_store (set_entries (<[key := mk_cache_entry v (t + ttl)]>
                                             (entries (store c'))) (store c')) c')
        | (Err e, c') => (Err e, c')
        end in
      match entries s !! key with
      | Some e =>
          if Z.ltb (now c) (ce_expiresAt e)
          then (Ok (ce_value e), set_store (count_hit s) c)
          else fetch (set_entries (delete key (entries s)) s)
      | None => fetch s
      end
    else producer c.

(** [cache.disable()] / [cache.enable()] *)
Definition disableCache : M unit :=
  modify (fun c => mk_client true (set_enabled false (store c)) (now c) (calls c)).
Definition enableCache : M unit :=
  modify (fun c => mk_client false (set_enabled true (store c)) (now c) (calls c)).

Definition invalidatePattern (p : string) : M unit :=
  modify (fun c => set_store (invalidate_prefix p (store c)) c).

(* ================================================================= *)
(** ** Client methods *)

Section Client.
(** The MCP server: its answer to a tool call. *)
Variable server : string -> json -> tool_result.
Variable json_parse : string -> option json.
(** [createCacheKey] of [@local/plugin-cache]. *)
Variable createCacheKey : string -> list (string * option json) -> string.

(** [callTool(name, args)] on a connected client. *)
Definition callTool (name : string) (args : json) : M json :=
  fun c => (callTool_response json_parse (server name args), log_call name args c).

(** [getProduct(productId)] (no [include]) *)
Definition getProduct (productId : string) : M json :=
  let* bypass := gets cacheDisabled in
  getOrFetch (createCacheKey "product" [("id", Some (JStr productId)); ("include", None)])
    (callTool "get_product" (JObj [("productId", JStr productId)]))
    FIFTEEN_MINUTES bypass.

(** [getPurchaseOrder(orderId, { include: ["lines"] })] *)
Definition getPurchaseOrder_lines (orderId : string) : M json :=
  let* bypass := gets cacheDisabled in
  getOrFetch (createCacheKey "purchase_order"
                [("id", Some (JStr orderId)); ("include", Some (JStr "lines"))])
    (callTool "get_purchase_order"
       (JObj [("purchaseOrderId", JStr orderId); ("include", JArr [JStr "lines"])]))
    FIVE_MINUTES bypass.

Definition getStockLevels (productId : option string) : M json :=
  match productId with
  | Some p =>
      if String.eqb p "" then
        throw "productId is required for get_inventory_summary. Use list-products first to get product IDs."
      else
        let* bypass := gets cacheDisabled in
        getOrFetch (createCacheKey "stock" [("productId", Some (JStr p))])
          (callTool "get_inventory_summary" (JObj [("productId", JStr p)]))
          FIVE_MINUTES bypass
  | None =>
      throw "productId is required for get_inventory_summary. Use list-products first to get product IDs."
  end.

(** *** Write operations *)

Definition createStockAdjustment (data : json) : M json :=
  let* result := callTool "upsert_stock_adjustment" data in
  invalidatePattern "stock" ;;;
  ret result.

Definition createStockTransfer (data : json) : M json :=
  let* result := callTool "upsert_stock_transfer" data in
  invalidatePattern "stock" ;;;
  ret result.

Definition createStockCount (data : json) : M json :=
  let* result := callTool "upsert_stock_count" data in
  invalidatePattern "stock" ;;;
  ret result.

Definition upsertProduct (data : json) : M json :=
  let* result := callTool "upsert_product" data in
  invalidatePattern "products" ;;;
  invalidatePattern "product:" ;;;
  invalidatePattern "products_search" ;;;
  invalidatePattern "product_bom" ;;;
  invalidatePattern "bom" ;;;
  ret result.

Definition upsertVendor (data : json) : M json :=
  let* result := callTool "upsert_vendor" data in
  invalidatePattern "vendors" ;;;
  ret result.

Definition upsertPurchaseOrder (data : json) : M json :=
  let* result := callTool "upsert_purchase_order" data in
  invalidatePattern "purchase_orders" ;;;
  invalidatePattern "purchase_order:" ;;;
  ret result.

Definition receivePurchaseOrder (data : json) : M json :=
  let* result := callTool "receive_purchase_order" data in
  invalidatePattern "purchase_orders" ;;;
  invalidatePattern "purchase_order:" ;;;
  invalidatePattern "stock" ;;;
  ret result.

Definition unreceivePurchaseOrder (data : json) : M json :=
  let* result := callTool "unreceive_purchase_order" data in
  (if negb (js_truthy (get_field "dryRun" data)) then
     invalidatePattern "purchase_orders" ;;;
     invalidatePattern "purchase_order:" ;;;
     invalidatePattern "stock"
   else ret tt) ;;;
  ret result.

(** *** Read-modify-write flows of [cli.ts] *)

(** A JavaScript object literal: fields whose value is [undefined] are
    left out. *)
Definition obj (fs : list (string * option json)) : json :=
  JObj (fold_right (fun kv acc => match kv.2 with
                                  | Some v => (kv.1, v) :: acc
                                  | None => acc
                                  end) [] fs).

(** [a || b] on optional values. *)
Definition or_else (a b : option json) : option json :=
  if js_truthy a then a else b.

Definition str (s : option string) : option json := option_map JStr s.

(** The [TypeError] a property read on [null] throws (its text is not
    modelled). *)
Definition TYPE_ERROR : string := "TypeError: Cannot read properties of null".

(** Reading properties of a fetched record: throws when it is [null]; on
    any other value a missing property reads as [undefined]. *)
Definition deref (v : json) : M unit :=
  match v with
  | JNull => throw TYPE_ERROR
  | _ => ret tt
  end.

(** ["update-product"] *)
Definition update_product (id : string) (name sku description : option string)
    (cost price : option json) : M json :=
  disableCache ;;;
  let* current := getProduct id in
  enableCache ;;;
  deref current ;;;
  upsertProduct (obj [("id", Some (JStr id));
                      ("name", or_else (str name) (get_field "name" current));
                      ("sku", str sku); ("description", str description);
                      ("cost", cost); ("defaultPrice", price);
                      ("timestamp", get_field "timestamp" current)]).

(** [[...(currentPO.lines || [])]]: an array spreads to its items, a
    string to its characters; any other truthy value is not iterable and
    throws. *)
Definition spread_lines (po : json) : M (list json) :=
  match get_field "lines" po with
  | Some (JArr l) => ret l
  | Some (JStr t) => ret (map (fun a => JStr (String a EmptyString)) (list_ascii_of_string t))
  | v => if js_truthy v then throw "TypeError: currentPO.lines is not iterable" else ret []
  end.

(** [(currentPO.lines || []).map(...)]: only an array has [map]; any other
    truthy value throws. *)
Definition array_lines (po : json) : M (list json) :=
  match get_field "lines" po with
  | Some (JArr l) => ret l
  | v => if js_truthy v then throw "TypeError: (currentPO.lines || []).map is not a function"
         else ret []
  end.

(** ["add-po-item"] *)
Definition add_po_item (purchaseOrderId productId : string) (quantity : Z)
    (unitCost : option json) : M json :=
  disableCache ;;;
  let* currentPO := getPurchaseOrder_lines purchaseOrderId in
  enableCache ;;;
  deref currentPO ;;;
  let* existingItems := spread_lines currentPO in
  upsertPurchaseOrder
    (obj [("id", Some (JStr purchaseOrderId));
          ("vendorId", get_field "vendorId" currentPO);
          ("items", Some (JArr (existingItems ++
                      [obj [("productId", Some (JStr productId));
                            ("quantity", Some (JNum quantity));
                            ("unitCost", unitCost)]])));
          ("timestamp", get_field "timestamp" currentPO)]).

(** The [map] callback of ["update-purchase-order"] rebuilding an
    upsert item from a PO line (its [parseFloat] arithmetic is not
    modelled). *)
Variable to_upsert_item : json -> json.

(** ["update-purchase-order"] *)
Definition update_purchase_order (id : string)
    (remarks orderDate expectedDate currency : option string) : M json :=
  disableCache ;;;
  let* currentPO := getPurchaseOrder_lines id in
  enableCache ;;;
  deref currentPO ;;;
  let* lines := array_lines currentPO in
  let existingItems := map to_upsert_item lines in
  upsertPurchaseOrder
    (obj [("id", Some (JStr id));
          ("vendorId", get_field "vendorId" currentPO);
          ("items", Some (JArr existingItems));
          ("remarks", match remarks with
                      | Some r => Some (JStr r)
                      | None => get_field "orderRemarks" currentPO
                      end);
          ("orderDate", or_else (str orderDate) (get_field "orderDate" currentPO));
          ("expectedDate", or_else (str expectedDate) (get_field "expectedDate" currentPO));
          ("currencyCode", str currency);
          ("timestamp", get_field "timestamp" currentPO)]).
End Client.

(* ================================================================= *)
(** ** The write operations, as a table *)

Inductive write_op :=
| W_createStockAdjustment | W_createStockTransfer | W_createStockCount
| W_upsertProduct | W_upsertVendor | W_upsertPurchaseOrder
| W_receivePurchaseOrder | W_unreceivePurchaseOrder.

Definition write_tool (w : write_op) : string :=
  match w with
  | W_createStockAdjustment => "upsert_stock_adjustment"
  | W_createStockTransfer => "upsert_stock_transfer"
  | W_createStockCount => "upsert_stock_count"
  | W_upsertProduct => "upsert_product"
  | W_upsertVendor => "upsert_vendor"
  | W_upsertPurchaseOrder => "upsert_purchase_order"
  | W_receivePurchaseOrder => "receive_purchase_order"
  | W_unreceivePurchaseOrder => "unreceive_purchase_order"
  end.

Definition run_write server json_parse (w : write_op) : json -> M json :=
  match w with
  | W_createStockAdjustment => createStockAdjustment server json_parse
  | W_createStockTransfer => createStockTransfer server json_parse
  | W_createStockCount => createStockCount server json_parse
  | W_upsertProduct => upsertProduct server json_parse
  | W_upsertVendor => upsertVendor server json_parse
  | W_upsertPurchaseOrder => upsertPurchaseOrder server json_parse
  | W_receivePurchaseOrder => receivePurchaseOrder server json_parse
  | W_unreceivePurchaseOrder => unreceivePurchaseOrder server json_parse
  end.

(** The prefixes each write purges, in the order it purges them. *)
Definition write_patterns (w : write_op) (data : json) : list string :=
  match w with
  | W_createStockAdjustment | W_createStockTransfer | W_createStockCount => ["stock"]
  | W_upsertProduct => ["products"; "product:"; "products_search"; "product_bom"; "bom"]
  | W_upsertVendor => ["vendors"]
  | W_upsertPurchaseOrder => ["purchase_orders"; "purchase_order:"]
  | W_receivePurchaseOrder => ["purchase_orders"; "purchase_order:"; "stock"]
  | W_unreceivePurchaseOrder =>
      if js_truthy (get_field "dryRun" data) then []
      else ["purchase_orders"; "purchase_order:"; "stock"]
  end%string.

Definition purge (ps : list string) (s : cache_store) : cache_store :=
  fold_left (fun s p => invalidate_prefix p s) ps s.

(* ================================================================= *)
(** ** Serial occurrences in processing order *)

(** The serials the loop of [for_each_serial] visits, with their line. *)
Definition line_serials (ls : list so_line) : list (so_line * string) :=
  flat_map (fun l => match serialNumbers l with
                     | None => []
                     | Some sns => map (pair l) (List.filter (fun s => negb (String.eqb s "")) sns)
                     end) ls.

(** Every serial occurrence [buildSerialIndex] visits: orders in order,
    within an order pack lines, then pick lines, then order lines. *)
Definition order_occurrences (orders : list sales_order)
    : list (sales_order * so_line * string) :=
  flat_map (fun o => map (fun ls => (o, ls.1, ls.2))
                         (line_serials (packLines o ++ pickLines o ++ lines o))) orders.

(** The entry of the first occurrence normalising to [k]. *)
Definition first_writer (orders : list sales_order) (k : string) : option index_entry :=
  match find (fun occ => String.eqb (normalize occ.2) k) (order_occurrences orders) with
  | Some (o, l, _) => Some (mk_index_entry k o l)
  | None => None
  end.

(** The occurrences [getSalesOrderSerials] visits: (source, line, serial). *)
Definition source_occurrences (order : sales_order) : list (string * so_line * string) :=
  map (fun ls => ("pack"%string, ls.1, ls.2)) (line_serials (packLines order)) ++
  map (fun ls => ("pick"%string, ls.1, ls.2)) (line_serials (pickLines order)) ++
  map (fun ls => ("order"%string, ls.1, ls.2)) (line_serials (lines order)).

(** Distinct raw strings, in order of first appearance. *)
Definition dedup_first (l : list string) : list string :=
  fold_left (fun acc s => if existsb (String.eqb s) acc then acc else acc ++ [s]) l [].

(** The record expected for raw serial [s]: product of its first
    occurrence, every source it occurs in, in order. *)
Definition expected_rec (occs : list (string * so_line * string)) (s : string) : serial_rec :=
  mk_srec s
    (match find (fun occ => String.eqb occ.2 s) occs with
     | Some (_, l, _) => productId l
     | None => ""%string
     end)
    (map (fun occ => occ.1.1) (List.filter (fun occ => String.eqb occ.2 s) occs)).

(* ================================================================= *)
(** ** [listSerials] *)

(** The object [listSerials] returns. *)
Record serial_list := mk_serial_list {
  sl_count : nat;
  sl_totalInIndex : nat;
  sl_serials : list index_entry
}.

(** [listSerials] once the index is at hand; [values] is
    [Object.values(serialIndex)] (and [Object.keys] has as many items). *)
Definition listSerials_of (values : list index_entry) (limit : option nat)
    (productId : option string) : serial_list :=
  let serials := match productId with
                 | Some p => if String.eqb p "" then values
                             else List.filter (fun v => String.eqb (ie_productId v) p) values
                 | None => values
                 end in
  let serials := match limit with
                 | Some (S _ as l) => if Nat.ltb l (length serials) then firstn l serials
                                      else serials
                 | _ => serials
                 end in
  mk_serial_list (length serials) (length values) serials.

(* ================================================================= *)
(** ** Product-based serial index *)

(** An item of [list_all_serials]' [result.serials], and a value of the
    product-based index (same fields, serial normalised). *)
Record product_serial := mk_pserial {
  ps_serial : string;
  ps_productId : string;
  ps_productName : string;
  ps_locationId : string;
  ps_quantityOnHand : json;
  ps_sublocation : json;
  ps_inStock : json
}.

(** The loop of [buildSerialIndexFromProducts] over [result.serials || []]:
    every item is assigned, unconditionally. *)
Definition buildSerialIndexFromProducts_of (serials : list product_serial)
    : gmap string product_serial :=
  fold_left (fun serialIndex serial =>
    let normalizedSerial := normalize (ps_serial serial) in
    <[normalizedSerial := mk_pserial normalizedSerial (ps_productId serial)
                            (ps_productName serial) (ps_locationId serial)
                            (ps_quantityOnHand serial) (ps_sublocation serial)
                            (ps_inStock serial)]> serialIndex) serials ∅.

Inductive product_search_result :=
| PFound (e : product_serial)
| PNotFound (serial : string) (message : string).

Definition searchSerialByProduct_in (serialIndex : gmap string product_serial)
    (serial : string) : product_search_result :=
  let normalizedSerial := normalize serial in
  match serialIndex !! normalizedSerial with
  | Some e => PFound e
  | None => PNotFound normalizedSerial
      "Serial number not found in product inventory. May not exist or may be in a non-serialized product."
  end.

(* ================================================================= *)
(** ** [getPurchaseOrderSerials] *)

(** A purchase-order line; [pol_serialNumbers] is
    [line.quantity?.serialNumbers] ([None] when absent). *)
Record po_line := mk_po_line {
  pol_purchaseOrderLineId : string;
  pol_productId : string;
  pol_serialNumbers : option (list string)
}.

Record po_serial := mk_po_serial {
  pos_serial : string;
  pos_productId : string;
  pos_lineId : string
}.

(** The loops of [getPurchaseOrderSerials] over [order.lines || []]:
    [serials.push(...)] for every item of [serialNumbers || []]. *)
Definition po_serials_of (ls : list po_line) : list po_serial :=
  fold_left (fun serials line =>
    let serialNumbers := match pol_serialNumbers line with Some l => l | None => [] end in
    fold_left (fun serials serial =>
      serials ++ [mk_po_serial serial (pol_productId line) (pol_purchaseOrderLineId line)])
      serialNumbers serials) ls [].

(** [serialCount] and [serials] of the result. *)
Definition getPurchaseOrderSerials_of (ls : list po_line) : nat * list po_serial :=
  let serials := po_serials_of ls in (length serials, serials).

(* ================================================================= *)
(** ** Further CLI commands of [cli.ts] *)

(** The [SyntaxError] [JSON.parse] throws (its text is not modelled). *)
Definition JSON_PARSE_ERROR : string := "SyntaxError: JSON.parse".

(** A double quote character. *)
Definition dq : string := String (ascii_of_nat 34) EmptyString.

Definition INVALID_ITEMS_MSG : string :=
  "Invalid items JSON. Format: [{" ++ dq ++ "productId" ++ dq ++ ":" ++ dq ++ "..." ++ dq ++
  ", " ++ dq ++ "quantity" ++ dq ++ ":5}]".

(** [x ? JSON.parse(x) : undefined] *)
Definition parse_opt (json_parse : string -> option json) (x : option string)
    : M (option json) :=
  match x with
  | Some s => if String.eqb s "" then ret None
              else match json_parse s with
                   | Some v => ret (Some v)
                   | None => throw JSON_PARSE_ERROR
                   end
  | None => ret None
  end.

Definition bool_opt (b : option bool) : option json := option_map JBool b.

(** ["receive-po-items"] *)
Definition receive_po_items server json_parse (purchaseOrderId : string)
    (receiveAll : option bool) (items : option string) (allowOverReceive : option bool)
    : M json :=
  let ra := js_truthy (bool_opt receiveAll) in
  let it := js_truthy (str items) in
  if negb ra && negb it then throw "Provide --receiveAll=true or --items=[...]"
  else if ra && it then throw "Cannot use both --receiveAll and --items"
  else
    let* parsedItems := parse_opt json_parse items in
    receivePurchaseOrder server json_parse
      (obj [("purchaseOrderId", Some (JStr purchaseOrderId));
            ("receiveAll", bool_opt receiveAll);
            ("items", parsedItems);
            ("allowOverReceive", bool_opt allowOverReceive)]).

(** [[receiveLineIds, items, unreceiveAll].filter(Boolean).length] *)
Definition unreceive_modes (receiveLineIds items : option string) (unreceiveAll : option bool)
    : nat :=
  length (List.filter (fun b => b)
            [js_truthy (str receiveLineIds); js_truthy (str items);
             js_truthy (bool_opt unreceiveAll)]).

(** ["unreceive-po-items"] *)
Definition unreceive_po_items server json_parse (purchaseOrderId : string)
    (receiveLineIds items : option string) (unreceiveAll dryRun : option bool) : M json :=
  let modes := unreceive_modes receiveLineIds items unreceiveAll in
  if Nat.eqb modes 0 then throw "Provide --receiveLineIds, --items, or --unreceiveAll"
  else if Nat.ltb 1 modes then
    throw "Use only one of --receiveLineIds, --items, or --unreceiveAll"
  else
    let* rl := parse_opt json_parse receiveLineIds in
    let* it := parse_opt json_parse items in
    unreceivePurchaseOrder server json_parse
      (obj [("purchaseOrderId", Some (JStr purchaseOrderId));
            ("receiveLineIds", rl); ("items", it);
            ("unreceiveAll", bool_opt unreceiveAll); ("dryRun", bool_opt dryRun)]).

(** ["create-purchase-order"] *)
Definition create_purchase_order server json_parse (vendorId : string)
    (orderNumber orderDate expectedDate locationId : option string) (items : string)
    (currency remarks : option string) : M json :=
  match json_parse items with
  | None => throw INVALID_ITEMS_MSG
  | Some parsedItems =>
      upsertPurchaseOrder server json_parse
        (obj [("vendorId", Some (JStr vendorId)); ("orderNumber", str orderNumber);
              ("orderDate", str orderDate); ("expectedDate", str expectedDate);
              ("locationId", str locationId); ("items", Some parsedItems);
              ("currencyCode", str currency); ("remarks", str remarks)])
  end.

(** [getVendor(vendorId)]: a direct tool call, no cache. *)
Definition getVendor server json_parse (vendorId : string) : M json :=
  callTool server json_parse "get_vendor" (JObj [("vendorId", JStr vendorId)]).

(** ["update-vendor"] *)
Definition update_vendor server json_parse (id : string)
    (name email phone website : option string) : M json :=
  let* vendor := getVendor server json_parse id in
  if negb (js_truthy (Some vendor)) then throw ("Vendor " ++ id ++ " not found")
  else
    upsertVendor server json_parse
      (obj [("id", Some (JStr id)); ("name", or_else (str name) (get_field "name" vendor));
            ("email", str email); ("phone", str phone); ("website", str website);
            ("timestamp", get_field "timestamp" vendor)]).

(* ================================================================= *)
(** ** Reference descriptions used by the statements *)

(** The entry of the last item of [serials] normalising to [k]. *)
Definition last_product_writer (serials : list product_serial) (k : string)
    : option product_serial :=
  match find (fun s => String.eqb (normalize (ps_serial s)) k) (rev serials) with
  | Some s => Some (mk_pserial k (ps_productId s) (ps_productName s) (ps_locationId s)
                      (ps_quantityOnHand s) (ps_sublocation s) (ps_inStock s))
  | None => None
  end.

(** [serialNumbers || []] of a purchase-order line. *)
Definition pol_serials (line : po_line) : list string :=
  match pol_serialNumbers line with Some l => l | None => [] end.

(** An action whose outcome does not depend on the client state. *)
Definition oblivious {A : Type} (m : M A) : Prop :=
  forall c1 c2, fst (m c1) = fst (m c2).

(** The [productId] filter of [listSerials], as one predicate. *)
Definition product_filter (productId : option string) (v : index_entry) : bool :=
  match productId with
  | Some p => String.eqb p "" || String.eqb (ie_productId v) p
  | None => true
  end.

(* ================================================================= *)
(** ** Concrete inputs *)

(** A server that rejects every tool call. *)
Definition failing_server : string -> json -> tool_result :=
  fun _ _ => mk_tool_result true [mk_content "text" (Some "Entity not found")].

(** A server that accepts every tool call with the JSON text ["{}"]. *)
Definition ok_server : string -> json -> tool_result :=
  fun _ _ => mk_tool_result false [mk_content "text" (Some "{}")].

Definition parse_obj : string -> option json :=
  fun t => if String.eqb t "{}" then Some (JObj []) else None.

Definition name_key : string -> list (string * option json) -> string := fun n _ => n.

(** A fresh client: caching on, empty store, clock at [t]. *)
Definition fresh_client (t : Z) : client_state :=
  mk_client false (mk_store ∅ true 0 0) t [].

Definition plain_order : sales_order :=
  mk_order "so" "SO-1" "2024-01-01" "Fulfilled" None [] [] [].

Definition last_order : sales_order :=
  mk_order "so80" "SO-80" "2024-03-01" "Fulfilled" None
    [mk_line "prod" (Some ["sn-last"%string])] [] [].

(** A store holding 80 fulfilled orders: one short page. *)
Definition eighty_orders : string -> nat -> nat -> list sales_order :=
  fun _ _ skip => match skip with
                  | O => repeat plain_order 79 ++ [last_order]
                  | S _ => []
                  end.

(* ================================================================= *)
(** * Theorems *)

(** ** Write operations purge only after the remote write *)

(** C3: every write operation calls the remote first; when the remote write
    fails the error propagates and the cache store is left as it was (only
    the call log grows); when it succeeds the result is returned and the
    store is purged with the write's prefixes. *)
Theorem write_purges_only_on_success server json_parse (w : write_op) (data : json)
    (c : client_state) :
  run_write server json_parse w data c =
  match callTool_response json_parse (server (write_tool w) data) with
  | Ok v => (Ok v, set_store (purge (write_patterns w data) (store c))
                     (log_call (write_tool w) data c))
  | Err e => (Err e, log_call (write_tool w) data c)
  end.
Proof.
  destruct w; cbn [run_write write_tool write_patterns];
  unfold createStockAdjustment, createStockTransfer, createStockCount, upsertProduct,
    upsertVendor, upsertPurchaseOrder, receivePurchaseOrder, unreceivePurchaseOrder,
    bind at 1, callTool;
  destruct (callTool_response json_parse _) as [v|e]; try reflexivity;
  try (destruct (js_truthy (get_field "dryRun" data)); cbn [negb]);
  unfold bind, invalidatePattern, modify, ret, purge, invalidate_prefix,
    set_store, set_entries, log_call; cbn; reflexivity.
Qed.

(** C9: [unreceivePurchaseOrder] with a truthy [dryRun] (e.g. [true])
    leaves the cache store unchanged; with [dryRun] absent or false a
    successful call applies [purchase_orders], [purchase_order:] and
    [stock], in that order. *)
Theorem unreceive_dryRun_frame server json_parse (data : json) (c : client_state) :
  unreceivePurchaseOrder server json_parse data c =
  match callTool_response json_parse (server "unreceive_purchase_order" data) with
  | Ok v =>
      (Ok v, set_store
               (if js_truthy (get_field "dryRun" data) then store c
                else invalidate_prefix "stock"
                       (invalidate_prefix "purchase_order:"
                          (invalidate_prefix "purchase_orders" (store c))))
               (log_call "unreceive_purchase_order" data c))
  | Err e => (Err e, log_call "unreceive_purchase_order" data c)
  end.
Proof.
  unfold unreceivePurchaseOrder, bind at 1, callTool.
  destruct (callTool_response json_parse _) as [v|e]; [|reflexivity].
  destruct (js_truthy (get_field "dryRun" data)); cbn [negb];
  unfold bind, invalidatePattern, modify, ret, set_store, log_call; cbn; reflexivity.
Qed.

(** C7: [getStockLevels] without a product id (or with the empty, falsy,
    one) throws before anything: the client state (cache entries, stats,
    switch, call log) is returned unchanged; with a non-empty id it is the
    cached fetch of [get_inventory_summary]. *)
Theorem getStockLevels_fail_fast server json_parse createCacheKey
    (productId : option string) (c : client_state) :
  getStockLevels server json_parse createCacheKey productId c =
  match productId with
  | Some p =>
      if String.eqb p "" then
        (Err (JsError "productId is required for get_inventory_summary. Use list-products first to get product IDs."), c)
      else
        getOrFetch (createCacheKey "stock" [("productId", Some (JStr p))])
          (callTool server json_parse "get_inventory_summary" (JObj [("productId", JStr p)]))
          FIVE_MINUTES (cacheDisabled c) c
  | None =>
      (Err (JsError "productId is required for get_inventory_summary. Use list-products first to get product IDs."), c)
  end.
Proof.
  destruct productId as [p|]; [|reflexivity].
  unfold getStockLevels. destruct (String.eqb p ""); reflexivity.
Qed.

(** ** [callTool] result normalisation *)

(** C8 (counterexample): an error result without text content throws
    ["Tool call failed"], a message the remote did not supply; a non-error
    result whose text item is empty returns the content array, not the raw
    text. *)
Lemma callTool_message_not_remote :
  callTool_response (fun _ => None) (mk_tool_result true []) =
    Err (JsError "Tool call failed") /\
  callTool_response (fun _ => None) (mk_tool_result false [mk_content "text" (Some "")]) =
    Ok (JArr [JObj [("type", JStr "text"); ("text", JStr "")]]).
Proof. split; reflexivity. Qed.

(** C8 (amended): [callTool] throws exactly when the result is flagged as
    an error, with the first text item's text as message when it is
    non-empty and ["Tool call failed"] otherwise; a non-error result never
    throws: with a non-empty first text item it is the parsed JSON when
    parsing succeeds and the raw text otherwise, else the content array. *)
Theorem callTool_error_iff_flagged (json_parse : string -> option json) (r : tool_result) :
  match callTool_response json_parse r with
  | Err (JsError m) =>
      isError r = true /\
      m = match truthy_text (find_text (content r)) with
          | Some t => t
          | None => "Tool call failed"%string
          end
  | Ok v =>
      isError r = false /\
      v = match truthy_text (find_text (content r)) with
          | Some t => match json_parse t with Some j => j | None => JStr t end
          | None => content_json (content r)
          end
  end.
Proof.
  unfold callTool_response. destruct (isError r).
  - split; reflexivity.
  - destruct (truthy_text (find_text (content r))) as [t|].
    + destruct (json_parse t); split; reflexivity.
    + split; reflexivity.
Qed.

(** ** Read-modify-write flows and the cache switch *)

(** C6 (code bug): in ["update-product"], ["add-po-item"] and
    ["update-purchase-order"], when the fresh fetch fails the error
    propagates before [enableCache] runs, so the client is left with
    [cacheDisabled = true] and the cache switched off. *)
Theorem rmw_flows_leave_cache_disabled server json_parse createCacheKey to_upsert_item
    (id poId productId : string) (name sku description remarks orderDate expectedDate
     currency : option string) (cost price unitCost : option json) (quantity : Z)
    (c : client_state) (e1 e2 : js_error) :
  callTool_response json_parse (server "get_product" (JObj [("productId", JStr id)])) = Err e1 ->
  callTool_response json_parse
    (server "get_purchase_order"
       (JObj [("purchaseOrderId", JStr poId); ("include", JArr [JStr "lines"])])) = Err e2 ->
  (let '(r, c') := update_product server json_parse createCacheKey id name sku description
                     cost price c in
   r = Err e1 /\ cacheDisabled c' = true /\ enabled (store c') = false) /\
  (let '(r, c') := add_po_item server json_parse createCacheKey poId productId quantity
                     unitCost c in
   r = Err e2 /\ cacheDisabled c' = true /\ enabled (store c') = false) /\
  (let '(r, c') := update_purchase_order server json_parse createCacheKey to_upsert_item
                     poId remarks orderDate expectedDate currency c in
   r = Err e2 /\ cacheDisabled c' = true /\ enabled (store c') = false).
Proof.
  intros H1 H2.
  unfold update_product, add_po_item, update_purchase_order, getProduct,
    getPurchaseOrder_lines, disableCache, enableCache, bind, modify, gets,
    getOrFetch, callTool, set_enabled; cbn.
  rewrite H1, H2. cbn. repeat split.
Qed.

Lemma rmw_flows_leave_cache_disabled_witness :
  let c := fresh_client 0 in
  (let '(r, c') := update_product failing_server parse_obj name_key "p1" None None None
                     None None c in
   r = Err (JsError "Entity not found") /\ cacheDisabled c' = true /\
   enabled (store c') = false).
Proof.
  cbv zeta.
  apply (rmw_flows_leave_cache_disabled failing_server parse_obj name_key (fun j => j)
           "p1" "po1" "prod" None None None None None None None None None None 1
           (fresh_client 0) (JsError "Entity not found") (JsError "Entity not found"));
    reflexivity.
Defined.

(** ** Pagination of [buildSerialIndex] *)

(** C2 (code bug): with [limit = 50] and a status holding 80 orders (one
    short first page), the short-page [break] runs before the cap check:
    all 80 orders are indexed, the 80th order's serial included. *)
Theorem buildSerialIndex_cap_overshoot :
  option_map (@length sales_order) (buildSerialIndex_orders eighty_orders 3 None (Some 50))
    = Some 80 /\
  option_map (fun idx => idx !! "SN-LAST"%string)
    (buildSerialIndex eighty_orders 3 None (Some 50)) =
    Some (Some (mk_entry "SN-LAST" "so80" "SO-80" "2024-03-01" "prod" None)).
Proof. split; vm_compute; reflexivity. Qed.

(** ** TTL of [getOrFetch] *)

(** C4: with the switch on and no bypass, once a call of
    [getOrFetch key p1 T] misses (no entry, or a stale one) and its
    producer [p1], whatever it does, returns [v] and leaves the switch on,
    the value [v] is stored; a second call on [key] with any producer [p2]
    at any time [t] with [now <= t < now + T] returns [v] and counts a hit
    without running [p2]; from [now + T] on the entry is stale: it is
    evicted, a miss is counted and [p2] runs, its value being stored. *)
Theorem getOrFetch_ttl (key : string) (T T' : Z) (p1 p2 : M json) (c c1 : client_state)
    (v : json) :
  enabled (store c) = true -> (0 < T)%Z ->
  match entries (store c) !! key with
  | Some e => (ce_expiresAt e <= now c)%Z
  | None => True
  end ->
  p1 (set_store (count_miss (match entries (store c) !! key with
                             | Some _ => set_entries (delete key (entries (store c))) (store c)
                             | None => store c
                             end)) c) = (Ok v, c1) ->
  enabled (store c1) = true ->
  let '(r1, c1') := getOrFetch key p1 T false c in
  r1 = Ok v /\
  (forall t, (now c <= t < now c + T)%Z ->
     getOrFetch key p2 T' false (set_now t c1') =
     (Ok v, set_store (count_hit (store c1')) (set_now t c1'))) /\
  (forall t, (now c + T <= t)%Z ->
     getOrFetch key p2 T' false (set_now t c1') =
     match p2 (set_store (count_miss (set_entries (delete key (entries (store c1')))
                                                 (store c1'))) (set_now t c1')) with
     | (Ok v', c') =>
         (Ok v', set_store (set_entries (<[key := mk_cache_entry v' (t + T')%Z]>
                                           (entries (store c'))) (store c')) c')
     | (Err e, c') => (Err e, c')
     end).
Proof.
  intros Hen HT Hmiss Hp Hen1.
  assert (Hfirst : getOrFetch key p1 T false c =
    (Ok v, set_store (set_entries (<[key := mk_cache_entry v (now c + T)]>
                                     (entries (store c1))) (store c1)) c1)).
  { unfold getOrFetch. rewrite Hen. cbn [andb negb]. revert Hmiss Hp.
    destruct (entries (store c) !! key) as [e|]; intros Hmiss Hp.
    - assert (Hlt : Z.ltb (now c) (ce_expiresAt e) = false) by (apply Z.ltb_ge; lia).
      rewrite Hlt. rewrite Hp. reflexivity.
    - rewrite Hp. reflexivity. }
  rewrite Hfirst. split; [reflexivity|]. split.
  - intros t Ht. unfold getOrFetch. cbn. rewrite Hen1. cbn.
    rewrite lookup_insert_eq. cbn.
    assert (Hlt : Z.ltb t (now c + T) = true) by (apply Z.ltb_lt; lia).
    rewrite Hlt. reflexivity.
  - intros t Ht. unfold getOrFetch at 1. cbn. rewrite Hen1. cbn.
    rewrite lookup_insert_eq. cbn.
    assert (Hlt : Z.ltb t (now c + T) = false) by (apply Z.ltb_ge; lia).
    rewrite Hlt. reflexivity.
Qed.

Lemma getOrFetch_ttl_witness :
  let '(r1, c1) := getOrFetch "p1" (callTool ok_server parse_obj "get_product" JNull)
                     300 false (fresh_client 0) in
  r1 = Ok (JObj []) /\
  (forall t, (0 <= t < 0 + 300)%Z ->
     getOrFetch "p1" (callTool failing_server parse_obj "get_product" JNull) 300 false
       (set_now t c1) = (Ok (JObj []), set_store (count_hit (store c1)) (set_now t c1))) /\
  (forall t, (0 + 300 <= t)%Z ->
     getOrFetch "p1" (callTool failing_server parse_obj "get_product" JNull) 300 false
       (set_now t c1) =
     match callTool failing_server parse_obj "get_product" JNull
             (set_store (count_miss (set_entries (delete "p1"%string (entries (store c1)))
                                                (store c1))) (set_now t c1)) with
     | (Ok v', c') =>
         (Ok v', set_store (set_entries (<[("p1"%string) := mk_cache_entry v' (t + 300)%Z]>
                                           (entries (store c'))) (store c')) c')
     | (Err e, c') => (Err e, c')
     end).
Proof.
  apply (getOrFetch_ttl "p1" 300 300 (callTool ok_server parse_obj "get_product" JNull)
           (callTool failing_server parse_obj "get_product" JNull) (fresh_client 0)
           (log_call "get_product" JNull (set_store (count_miss (store (fresh_client 0)))
                                           (fresh_client 0)))
           (JObj []));
    [reflexivity | lia | exact I | reflexivity | reflexivity].
Defined.

(** ** Normalisation *)

Lemma is_ws_upper_char (c : ascii) : is_ws (upper_char c) = is_ws c.
Proof. destruct c as [[] [] [] [] [] [] [] []]; reflexivity. Qed.

Lemma upper_char_idem (c : ascii) : upper_char (upper_char c) = upper_char c.
Proof. destruct c as [[] [] [] [] [] [] [] []]; reflexivity. Qed.

Lemma drop_ws_map_upper (l : list ascii) :
  drop_ws (map upper_char l) = map upper_char (drop_ws l).
Proof.
  induction l as [|c l IH]; [reflexivity|].
  cbn. rewrite is_ws_upper_char. by destruct (is_ws c).
Qed.

Lemma drop_ws_idem (l : list ascii) : drop_ws (drop_ws l) = drop_ws l.
Proof.
  induction l as [|c l IH]; [reflexivity|].
  cbn. destruct (is_ws c) eqn:Hc; [exact IH|]. cbn. by rewrite Hc.
Qed.

Lemma drop_ws_suffix (l : list ascii) : exists w, l = w ++ drop_ws l.
Proof.
  induction l as [|c l [w IH]]; [by exists []|].
  cbn. destruct (is_ws c).
  - exists (c :: w). cbn. by rewrite <- IH.
  - by exists [].
Qed.

(** After [drop_ws] the head, if any, is not white space. *)
Lemma drop_ws_head (l : list ascii) :
  match drop_ws l with
  | [] => True
  | c :: _ => is_ws c = false
  end.
Proof.
  induction l as [|c l IH]; [exact I|].
  cbn. destruct (is_ws c) eqn:Hc; [exact IH | exact Hc].
Qed.

Lemma drop_ws_clean (c : ascii) (r : list ascii) :
  is_ws c = false -> drop_ws (c :: r) = c :: r.
Proof. intros Hc. cbn. by rewrite Hc. Qed.

(** Trimming the end keeps a clean head clean. *)
Lemma drop_ws_trim_end (l : list ascii) :
  match l with [] => True | c :: _ => is_ws c = false end ->
  drop_ws (rev (drop_ws (rev l))) = rev (drop_ws (rev l)).
Proof.
  intros Hl.
  destruct (drop_ws_suffix (rev l)) as [w Hw].
  assert (Hl' : l = rev (drop_ws (rev l)) ++ rev w).
  { rewrite <- rev_app_distr, <- Hw. by rewrite rev_involutive. }
  destruct (rev (drop_ws (rev l))) as [|c r] eqn:E; [reflexivity|].
  rewrite Hl' in Hl. cbn in Hl. by apply drop_ws_clean.
Qed.

Lemma trim_list_idem (l : list ascii) :
  rev (drop_ws (rev (drop_ws (rev (drop_ws (rev (drop_ws l))))))) =
  rev (drop_ws (rev (drop_ws l))).
Proof.
  rewrite (drop_ws_trim_end (drop_ws l)) by apply drop_ws_head.
  rewrite rev_involutive, drop_ws_idem. reflexivity.
Qed.

Lemma normalize_idem (s : string) : normalize (normalize s) = normalize s.
Proof.
  unfold normalize, toUpperCase, trim.
  rewrite !list_ascii_of_string_of_list_ascii.
  rewrite drop_ws_map_upper, <- map_rev, drop_ws_map_upper, <- map_rev.
  rewrite trim_list_idem, map_map.
  f_equal. apply map_ext. apply upper_char_idem.
Qed.

(** ** The serial loops as one pass over the occurrences *)

Lemma for_each_serial_flat {A : Type} (body : A -> so_line -> string -> A)
    (ls : list so_line) (a : A) :
  for_each_serial body ls a =
  fold_left (fun a ls => body a ls.1 ls.2) (line_serials ls) a.
Proof.
  unfold for_each_serial, line_serials. revert a.
  induction ls as [|l ls IH]; intros a; [reflexivity|].
  cbn [fold_left flat_map]. rewrite fold_left_app, <- IH.
  f_equal. destruct (serialNumbers l) as [sns|]; [|reflexivity].
  clear IH. revert a. induction sns as [|s sns IHs]; intros a; [reflexivity|].
  cbn. destruct (String.eqb s "") eqn:Hs; cbn; apply IHs.
Qed.

Lemma line_serials_app (l1 l2 : list so_line) :
  line_serials (l1 ++ l2) = line_serials l1 ++ line_serials l2.
Proof. unfold line_serials. apply flat_map_app. Qed.

Lemma fold_left_map_l {A B C : Type} (g : A -> C -> A) (f : B -> C) (l : list B) (a : A) :
  fold_left g (map f l) a = fold_left (fun a x => g a (f x)) l a.
Proof. revert a. induction l as [|x l IH]; intros a; [reflexivity|]. apply IH. Qed.

Lemma index_orders_flat (orders : list sales_order) :
  index_orders orders =
  fold_left (fun idx occ => index_add occ.1.1 idx occ.1.2 occ.2)
    (order_occurrences orders) ∅.
Proof.
  unfold index_orders, order_occurrences.
  generalize (∅ : gmap string index_entry) as m.
  induction orders as [|o os IH]; intros m; [reflexivity|].
  cbn [fold_left flat_map]. rewrite fold_left_app, <- IH. f_equal.
  unfold extractFromLines. rewrite !for_each_serial_flat.
  rewrite !line_serials_app, !map_app, !fold_left_app, !fold_left_map_l.
  reflexivity.
Qed.

(** Inserting only when absent: the first writer of a key stays. *)
Lemma index_add_fold (occs : list (sales_order * so_line * string))
    (m : gmap string index_entry) (k : string) :
  fold_left (fun idx occ => index_add occ.1.1 idx occ.1.2 occ.2) occs m !! k =
  match m !! k with
  | Some e => Some e
  | None =>
      match find (fun occ => String.eqb (normalize occ.2) k) occs with
      | Some (o, l, _) => Some (mk_index_entry k o l)
      | None => None
      end
  end.
Proof.
  revert m. induction occs as [|[[o l] s] occs IH]; intros m.
  - cbn. by destruct (m !! k).
  - cbn [fold_left find]. rewrite IH. cbn [fst snd]. unfold index_add.
    destruct (String.eqb_spec (normalize s) k) as [<-|Hne].
    + destruct (m !! normalize s) as [e|] eqn:He; [by rewrite He|].
      by rewrite lookup_insert_eq.
    + destruct (m !! normalize s) as [e|] eqn:He; [reflexivity|].
      by rewrite lookup_insert_ne.
Qed.

(** C1: the entry of the order-based index for a key [k] is the one built
    from the first occurrence, in processing order (orders in page order;
    within an order pack lines, then pick lines, then order lines), of a
    serial normalising to [k]; later occurrences never replace it, and
    the choice does not look at order dates. *)
Theorem serial_index_first_writer_wins (orders : list sales_order) (k : string) :
  index_orders orders !! k = first_writer orders k.
Proof.
  rewrite index_orders_flat, index_add_fold, lookup_empty. reflexivity.
Qed.

(** Later orders do not change an entry already made. *)
Example first_writer_two_orders :
  let o1 := mk_order "so1" "SO-1" "2024-05-01" "Fulfilled" None
              [mk_line "p1" (Some ["abc123"%string])] [] [] in
  let o2 := mk_order "so2" "SO-2" "2023-01-01" "Fulfilled" None
              [] [] [mk_line "p2" (Some [" ABC123 "%string])] in
  index_orders [o1; o2] !! "ABC123"%string =
    Some (mk_entry "ABC123" "so1" "SO-1" "2024-05-01" "p1" None) /\
  index_orders [o2; o1] !! "ABC123"%string =
    Some (mk_entry "ABC123" "so2" "SO-2" "2023-01-01" "p2" None).
Proof. split; vm_compute; reflexivity. Qed.

(** ** Normalised keys and lookups *)

Lemma for_each_serial_inv {A : Type} (I : A -> Prop) (body : A -> so_line -> string -> A)
    (ls : list so_line) (a : A) :
  (forall a l s, I a -> I (body a l s)) -> I a -> I (for_each_serial body ls a).
Proof.
  intros Hb Ha. rewrite for_each_serial_flat.
  revert a Ha. induction (line_serials ls) as [|x xs IH]; intros a Ha; [exact Ha|].
  apply IH, Hb, Ha.
Qed.

Lemma index_keys_normalized (orders : list sales_order) :
  map_Forall (fun k _ => normalize k = k) (index_orders orders).
Proof.
  unfold index_orders.
  assert (H0 : map_Forall (fun k (_ : index_entry) => normalize k = k)
                 (∅ : gmap string index_entry)) by apply map_Forall_empty.
  revert H0. generalize (∅ : gmap string index_entry) as m.
  induction orders as [|o os IH]; intros m Hm; [exact Hm|].
  apply IH. unfold extractFromLines.
  repeat (apply for_each_serial_inv; [|]).
  - intros a l s Ha. unfold index_add.
    destruct (a !! normalize s); [exact Ha|].
    apply map_Forall_insert_2; [apply normalize_idem | exact Ha].
  - intros a l s Ha. unfold index_add.
    destruct (a !! normalize s); [exact Ha|].
    apply map_Forall_insert_2; [apply normalize_idem | exact Ha].
  - intros a l s Ha. unfold index_add.
    destruct (a !! normalize s); [exact Ha|].
    apply map_Forall_insert_2; [apply normalize_idem | exact Ha].
  - exact Hm.
Qed.

(** C5: every key of a built order-based index is its own normal form,
    and [searchSerial] on a fixed index answers the same for every query
    with the same trimmed upper-cased form. *)
Theorem serial_lookup_normalization (orders : list sales_order)
    (idx : gmap string index_entry) (s1 s2 : string) :
  map_Forall (fun k _ => normalize k = k) (index_orders orders) /\
  (normalize s1 = normalize s2 -> searchSerial_in idx s1 = searchSerial_in idx s2).
Proof.
  split; [apply index_keys_normalized|].
  intros H. unfold searchSerial_in. by rewrite H.
Qed.

Lemma serial_lookup_normalization_witness :
  map_Forall (fun k _ => normalize k = k) (index_orders [last_order]) /\
  searchSerial_in (index_orders [last_order]) " sn-last " =
    searchSerial_in (index_orders [last_order]) "SN-LAST".
Proof.
  split.
  - apply (serial_lookup_normalization [last_order] ∅ "" "").
  - apply (serial_lookup_normalization [last_order] (index_orders [last_order])
             " sn-last " "SN-LAST"). reflexivity.
Defined.

(** ** [getSalesOrderSerials]: raw-string deduplication *)

Lemma find_app {A : Type} (f : A -> bool) (l1 l2 : list A) :
  find f (l1 ++ l2) = match find f l1 with Some x => Some x | None => find f l2 end.
Proof. induction l1 as [|x l1 IH]; [reflexivity|]. cbn. by destruct (f x). Qed.

Lemma existsb_eqb_In (s : string) (l : list string) :
  existsb (String.eqb s) l = true <-> In s l.
Proof.
  rewrite existsb_exists. split.
  - intros [x [Hx Heq]]. apply String.eqb_eq in Heq. by subst.
  - intros H. exists s. split; [exact H | apply String.eqb_refl].
Qed.

Lemma dedup_fold_In (l acc : list string) (d : string) :
  In d (fold_left (fun acc s => if existsb (String.eqb s) acc then acc else acc ++ [s]) l acc)
  <-> In d acc \/ In d l.
Proof.
  revert acc. induction l as [|s l IH]; intros acc; cbn.
  - tauto.
  - rewrite IH. destruct (existsb (String.eqb s) acc) eqn:E.
    + apply existsb_eqb_In in E. split; [tauto|]. intros [H|[<-|H]]; tauto.
    + rewrite in_app_iff. cbn. tauto.
Qed.

Lemma In_dedup_first (l : list string) (d : string) : In d (dedup_first l) <-> In d l.
Proof. unfold dedup_first. rewrite dedup_fold_In. cbn. tauto. Qed.

Lemma find_serial_none (occs : list (string * so_line * string)) (s : string) :
  ~ In s (map (fun occ => occ.2) occs) ->
  find (fun occ => String.eqb occ.2 s) occs = None.
Proof.
  induction occs as [|o occs IH]; intros Hn; [reflexivity|].
  cbn in *. destruct (String.eqb_spec o.2 s) as [E|E]; [tauto|]. apply IH. tauto.
Qed.

Lemma find_serial_some (occs : list (string * so_line * string)) (s : string) :
  In s (map (fun occ => occ.2) occs) ->
  exists o, find (fun occ => String.eqb occ.2 s) occs = Some o.
Proof.
  induction occs as [|o occs IH]; intros Hi; [destruct Hi|].
  cbn in *. destruct (String.eqb_spec o.2 s) as [E|E]; [by exists o|].
  apply IH. destruct Hi as [Hi|Hi]; [congruence | exact Hi].
Qed.

Lemma existsb_expected (occs : list (string * so_line * string)) (s : string)
    (D : list string) :
  existsb (fun r => String.eqb (sr_serial r) s) (map (expected_rec occs) D) =
  existsb (String.eqb s) D.
Proof.
  induction D as [|d D IH]; [reflexivity|]. cbn. by rewrite IH, String.eqb_sym.
Qed.

(** The [serialMap] after visiting [occs]: one record per distinct raw
    string, in order of first appearance. *)
Lemma serialMap_fold (occs : list (string * so_line * string)) :
  fold_left (fun m occ => serialMap_add occ.1.1 m occ.1.2 occ.2) occs [] =
  map (expected_rec occs) (dedup_first (map (fun occ => occ.2) occs)).
Proof.
  induction occs as [|x occs IH] using rev_ind; [reflexivity|].
  rewrite fold_left_app, IH. cbn [fold_left].
  destruct x as [[src l] s]. cbn [fst snd].
  unfold dedup_first at 2. rewrite map_app, fold_left_app. fold (dedup_first (map (fun occ => occ.2) occs)).
  cbn [fold_left map fst snd].
  set (D := dedup_first (map (fun occ => occ.2) occs)).
  unfold serialMap_add.
  assert (Hex : existsb (fun r => String.eqb (sr_serial r) s) (map (expected_rec occs) D) =
                existsb (String.eqb s) D).
  { apply existsb_expected. }
  rewrite Hex. destruct (existsb (String.eqb s) D) eqn:E.
  - rewrite map_map. apply map_ext_in. intros d Hd.
    assert (Hocc : In d (map (fun occ => occ.2) occs)) by (by apply In_dedup_first).
    destruct (find_serial_some occs d Hocc) as [o Ho].
    unfold expected_rec. rewrite find_app, Ho, List.filter_app, map_app. cbn.
    rewrite (String.eqb_sym s d).
    destruct (String.eqb_spec d s) as [->|Hne]; cbn; [reflexivity | by rewrite app_nil_r].
  - rewrite map_app. f_equal.
    + apply map_ext_in. intros d Hd.
      assert (Hne : d <> s).
      { intros ->. apply existsb_eqb_In in Hd. congruence. }
      assert (Hocc : In d (map (fun occ => occ.2) occs)) by (by apply In_dedup_first).
      destruct (find_serial_some occs d Hocc) as [o Ho].
      unfold expected_rec. rewrite find_app, Ho, List.filter_app, map_app. cbn.
      destruct (String.eqb_spec s d) as [->|_]; [congruence|]. by rewrite app_nil_r.
    + assert (Hn : ~ In s (map (fun occ => occ.2) occs)).
      { intros Hi. apply In_dedup_first, existsb_eqb_In in Hi. fold D in Hi. congruence. }
      unfold expected_rec. cbn. rewrite find_app, find_serial_none by exact Hn. cbn.
      rewrite String.eqb_refl, List.filter_app, map_app. cbn. rewrite String.eqb_refl.
      assert (Hf : List.filter (fun occ => String.eqb occ.2 s) occs = []).
      { clear -Hn. induction occs as [|o occs IH]; [reflexivity|].
        cbn in *. destruct (String.eqb_spec o.2 s); [tauto|]. apply IH. tauto. }
      by rewrite Hf.
Qed.

Lemma extractSerials_flat (ls : list so_line) (source : string) (m : list serial_rec) :
  extractSerials ls source m =
  fold_left (fun m occ => serialMap_add occ.1.1 m occ.1.2 occ.2)
    (map (fun x => (source, x.1, x.2)) (line_serials ls)) m.
Proof.
  unfold extractSerials. rewrite for_each_serial_flat, fold_left_map_l. reflexivity.
Qed.

(** C10: [getSalesOrderSerials] keys its map by the raw serial string: the
    returned [serials] hold one record per distinct raw string (so strings
    differing only in case or surrounding white space give distinct
    records), in order of first appearance over pack, pick, then order
    lines; each record's [productId] is that of the first occurrence of
    its exact string, and its [sources] list every occurrence's source in
    that order, the first being the earliest. *)
Theorem salesOrderSerials_raw_dedup (order : sales_order) :
  os_serials (getSalesOrderSerials_of order) =
  map (expected_rec (source_occurrences order))
    (dedup_first (map (fun occ => occ.2) (source_occurrences order))).
Proof.
  rewrite <- serialMap_fold. unfold getSalesOrderSerials_of, source_occurrences. cbn.
  rewrite !extractSerials_flat, !fold_left_app. reflexivity.
Qed.

Example salesOrderSerials_case_variants :
  let o := mk_order "so" "SO-9" "2024-01-01" "Fulfilled" None
             [mk_line "p1" (Some ["abc"%string])]
             [mk_line "p2" (Some [" ABC"%string; "abc"%string])] [] in
  os_serials (getSalesOrderSerials_of o) =
    [mk_srec "abc" "p1" ["pack"; "pick"]; mk_srec " ABC" "p2" ["pick"]].
Proof. vm_compute. reflexivity. Qed.

(** ** [listSerials] *)

Lemma filter_all_true {A : Type} (f : A -> bool) (l : list A) :
  (forall x, f x = true) -> List.filter f l = l.
Proof. intros Hf. induction l as [|x l IH]; [reflexivity|]. cbn. by rewrite Hf, IH. Qed.

Lemma listSerials_filter_stage (values : list index_entry) (productId : option string) :
  match productId with
  | Some p => if String.eqb p "" then values
              else List.filter (fun v => String.eqb (ie_productId v) p) values
  | None => values
  end = List.filter (product_filter productId) values.
Proof.
  destruct productId as [p|]; cbn.
  - destruct (String.eqb p "") eqn:E; cbn.
    + symmetry. apply filter_all_true. intros v. unfold product_filter. by rewrite E.
    + apply filter_ext. intros v. unfold product_filter. by rewrite E.
  - symmetry. by apply filter_all_true.
Qed.

(** [listSerials] returns, in index order, a prefix of the index values
    that pass the [productId] filter (an empty [productId] filters
    nothing); [count] is the number of items returned and
    [totalInIndex] the size of the whole index. *)
Theorem listSerials_prefix_of_filter (values : list index_entry) (limit : option nat)
    (productId : option string) :
  let r := listSerials_of values limit productId in
  (exists rest, sl_serials r ++ rest = List.filter (product_filter productId) values) /\
  sl_count r = length (sl_serials r) /\ sl_totalInIndex r = length values.
Proof.
  cbv zeta. unfold listSerials_of. rewrite listSerials_filter_stage.
  set (F := List.filter (product_filter productId) values).
  destruct limit as [[|l]|]; cbn [sl_serials sl_count sl_totalInIndex].
  - split; [exists []; apply app_nil_r | split; reflexivity].
  - destruct (Nat.ltb (S l) (length F)); cbn [sl_serials sl_count sl_totalInIndex].
    + split; [exists (skipn (S l) F); apply firstn_skipn | split; reflexivity].
    + split; [exists []; apply app_nil_r | split; reflexivity].
  - split; [exists []; apply app_nil_r | split; reflexivity].
Qed.


(** ** Product-based serial index *)

Lemma product_index_lookup (serials : list product_serial) (k : string) :
  buildSerialIndexFromProducts_of serials !! k = last_product_writer serials k.
Proof.
  unfold buildSerialIndexFromProducts_of, last_product_writer.
  induction serials as [|s serials IH] using rev_ind; [reflexivity|].
  rewrite fold_left_app, rev_app_distr. cbn [fold_left rev app find].
  destruct (String.eqb_spec (normalize (ps_serial s)) k) as [<-|Hne].
  - by rewrite lookup_insert_eq.
  - rewrite lookup_insert_ne by exact Hne. exact IH.
Qed.

(** [buildSerialIndexFromProducts] assigns unconditionally: the entry for
    a key [k] is built from the LAST item of [list_all_serials] whose
    serial normalises to [k] (the opposite of the order-based index), and
    carries [k] as its serial. *)
Theorem product_index_last_writer_wins (serials : list product_serial) (k : string) :
  buildSerialIndexFromProducts_of serials !! k = last_product_writer serials k.
Proof. apply product_index_lookup. Qed.

Lemma find_rev_some_In {A : Type} (f : A -> bool) (l : list A) (x : A) :
  In x l -> f x = true -> exists y, find f (rev l) = Some y.
Proof.
  intros Hi Hf. destruct (find f (rev l)) as [y|] eqn:E; [by exists y|].
  exfalso. apply in_rev in Hi. pose proof (find_none f (rev l) E x Hi). congruence.
Qed.

(** [searchSerialByProduct] on the product-based index finds every serial
    [list_all_serials] listed, whatever its spelling up to surrounding
    white space and case, and answers with the normalised serial. *)
Theorem searchSerialByProduct_finds_listed (serials : list product_serial)
    (s : product_serial) (query : string) :
  In s serials -> normalize query = normalize (ps_serial s) ->
  exists e, searchSerialByProduct_in (buildSerialIndexFromProducts_of serials) query = PFound e
            /\ ps_serial e = normalize query.
Proof.
  intros Hin Hq. unfold searchSerialByProduct_in.
  rewrite product_index_lookup. unfold last_product_writer.
  destruct (find_rev_some_In (fun s0 => String.eqb (normalize (ps_serial s0)) (normalize query))
              serials s Hin) as [y Hy].
  { rewrite Hq. apply String.eqb_refl. }
  rewrite Hy. eexists. split; reflexivity.
Qed.

Lemma searchSerialByProduct_finds_listed_witness :
  In (mk_pserial "abc-1" "p1" "Prod" "loc" (JNum 1) JNull (JBool true))
     [mk_pserial "abc-1" "p1" "Prod" "loc" (JNum 1) JNull (JBool true)] /\
  normalize " ABC-1 " = normalize "abc-1" /\
  exists e, searchSerialByProduct_in
              (buildSerialIndexFromProducts_of
                 [mk_pserial "abc-1" "p1" "Prod" "loc" (JNum 1) JNull (JBool true)]) " ABC-1 "
            = PFound e /\ ps_serial e = normalize " ABC-1 ".
Proof.
  split; [left; reflexivity|]. split; [reflexivity|].
  apply (searchSerialByProduct_finds_listed
           [mk_pserial "abc-1" "p1" "Prod" "loc" (JNum 1) JNull (JBool true)]
           (mk_pserial "abc-1" "p1" "Prod" "loc" (JNum 1) JNull (JBool true)) " ABC-1 ");
    [left; reflexivity | reflexivity].
Defined.

(** Every key of the product-based index is its own normal form and is
    the serial of its entry. *)
Theorem product_index_keys_normalized (serials : list product_serial) :
  map_Forall (fun k e => normalize k = k /\ ps_serial e = k)
    (buildSerialIndexFromProducts_of serials).
Proof.
  unfold buildSerialIndexFromProducts_of.
  induction serials as [|s serials IH] using rev_ind; [apply map_Forall_empty|].
  rewrite fold_left_app. cbn [fold_left].
  apply map_Forall_insert_2; [split; [apply normalize_idem | reflexivity] | exact IH].
Qed.

(** ** [getPurchaseOrderSerials] *)

Lemma push_fold {A B : Type} (g : A -> B) (l : list A) (acc : list B) :
  fold_left (fun acc x => acc ++ [g x]) l acc = acc ++ map g l.
Proof.
  revert acc. induction l as [|x l IH]; intros acc; cbn; [by rewrite app_nil_r|].
  by rewrite IH, <- app_assoc.
Qed.

Lemma po_serials_flat (ls : list po_line) :
  po_serials_of ls =
  flat_map (fun line => map (fun s => mk_po_serial s (pol_productId line)
                                         (pol_purchaseOrderLineId line)) (pol_serials line)) ls.
Proof.
  unfold po_serials_of.
  enough (H : forall acc, fold_left (fun serials line =>
    fold_left (fun serials serial =>
      serials ++ [mk_po_serial serial (pol_productId line) (pol_purchaseOrderLineId line)])
      (pol_serials line) serials) ls acc =
    acc ++ flat_map (fun line => map (fun s => mk_po_serial s (pol_productId line)
                       (pol_purchaseOrderLineId line)) (pol_serials line)) ls) by apply H.
  induction ls as [|line ls IH]; intros acc; cbn; [by rewrite app_nil_r|].
  rewrite push_fold, IH, app_assoc. reflexivity.
Qed.

(** [getPurchaseOrderSerials] keeps every serial string as received, empty
    strings and duplicates included, in line order: the returned serials
    are the concatenation of the lines' [serialNumbers] (absent ones
    counting as empty), [serialCount] is the sum of their lengths, and
    each serial of a line becomes an item labelled with that line's
    product and line id, lines in order. *)
Theorem purchaseOrderSerials_all_kept (ls : list po_line) :
  let '(serialCount, serials) := getPurchaseOrderSerials_of ls in
  map pos_serial serials = flat_map pol_serials ls /\
  serialCount = list_sum (map (fun line => length (pol_serials line)) ls) /\
  serials = flat_map (fun line => map (fun s => mk_po_serial s (pol_productId line)
                                                    (pol_purchaseOrderLineId line))
                                      (pol_serials line)) ls.
Proof.
  unfold getPurchaseOrderSerials_of. rewrite po_serials_flat. split; [|split].
  - induction ls as [|line ls IH]; [reflexivity|].
    cbn [flat_map]. rewrite map_app, IH, map_map. cbn. f_equal. apply map_id.
  - induction ls as [|line ls IH]; [reflexivity|].
    cbn [flat_map map list_sum]. rewrite length_app, IH, length_map. reflexivity.
  - reflexivity.
Qed.

(** ** Argument checks of the CLI write commands *)

Lemma parse_opt_state json_parse (x : option string) (c : client_state) :
  snd (parse_opt json_parse x c) = c.
Proof.
  destruct x as [s|]; [|reflexivity]. cbn.
  destruct (String.eqb s ""); [reflexivity|]. by destruct (json_parse s).
Qed.

(** [obj] leaves out [undefined] fields: reading a field of an object
    literal gives the first defined value under that name. *)
Lemma get_field_obj (k : string) (fs : list (string * option json)) :
  get_field k (obj fs) =
  match find (fun kv => String.eqb kv.1 k && match kv.2 with Some _ => true | None => false end) fs with
  | Some kv => kv.2
  | None => None
  end.
Proof.
  unfold get_field, obj. induction fs as [|[k' [v|]] fs IH]; cbn; [reflexivity| |].
  - destruct (String.eqb k' k); [reflexivity|]. exact IH.
  - rewrite andb_false_r. exact IH.
Qed.

(** ["unreceive-po-items --dryRun=true"] never changes the cache store,
    whether it throws (argument checks, [JSON.parse], remote error) or
    succeeds. *)
Theorem unreceive_po_items_dryRun_keeps_cache server json_parse (purchaseOrderId : string)
    (receiveLineIds items : option string) (unreceiveAll : option bool) (c : client_state) :
  store (snd (unreceive_po_items server json_parse purchaseOrderId receiveLineIds items
                unreceiveAll (Some true) c)) = store c.
Proof.
  unfold unreceive_po_items.
  destruct (Nat.eqb _ 0); [reflexivity|]. destruct (Nat.ltb 1 _); [reflexivity|].
  unfold bind at 1.
  pose proof (parse_opt_state json_parse receiveLineIds c) as E1.
  destruct (parse_opt json_parse receiveLineIds c) as [[rl|e] c1]; cbn in E1; subst c1;
    [|reflexivity].
  unfold bind at 1.
  pose proof (parse_opt_state json_parse items c) as E2.
  destruct (parse_opt json_parse items c) as [[it|e] c2]; cbn in E2; subst c2;
    [|reflexivity].
  unfold unreceivePurchaseOrder, bind at 1, callTool.
  destruct (callTool_response json_parse _) as [v|e]; [|reflexivity].
  rewrite get_field_obj.
  replace (find _ _) with (Some ("dryRun"%string, Some (JBool true))).
  - reflexivity.
  - destruct rl, it, unreceiveAll; reflexivity.
Qed.

(** ** Fresh reads of the update commands *)

(** ["update-vendor"] reads the vendor with an uncached [get_vendor]: the
    outcome does not depend on the client state at all, and the cache
    store changes only by the [vendors] purge of a successful upsert (a
    falsy vendor throws ["Vendor <id> not found"] and purges nothing). *)
Theorem update_vendor_uncached server json_parse (id : string)
    (name email phone website : option string) (c1 c2 : client_state) :
  fst (update_vendor server json_parse id name email phone website c1) =
  fst (update_vendor server json_parse id name email phone website c2) /\
  store (snd (update_vendor server json_parse id name email phone website c1)) =
  match fst (update_vendor server json_parse id name email phone website c1) with
  | Ok _ => invalidate_prefix "vendors" (store c1)
  | Err _ => store c1
  end.
Proof.
  unfold update_vendor, getVendor, upsertVendor, bind, callTool, invalidatePattern,
    modify, ret, throw.
  destruct (callTool_response json_parse (server "get_vendor" _)) as [v|e];
    [|split; reflexivity].
  destruct (negb (js_truthy (Some v))); [split; reflexivity|].
  destruct (callTool_response json_parse (server "upsert_vendor" _)); split; reflexivity.
Qed.

Lemma oblivious_bind {A B : Type} (m : M A) (k : A -> M B) :
  oblivious m -> (forall a, oblivious (k a)) -> oblivious (bind m k).
Proof.
  intros Hm Hk c1 c2. unfold bind. specialize (Hm c1 c2).
  destruct (m c1) as [[a|e] c1'], (m c2) as [[a'|e'] c2']; cbn in Hm; try discriminate.
  - injection Hm as <-. apply Hk.
  - by injection Hm as <-.
Qed.

Lemma oblivious_ret {A : Type} (a : A) : oblivious (ret a).
Proof. intros c1 c2. reflexivity. Qed.

Lemma oblivious_throw {A : Type} (msg : string) : oblivious (@throw A msg).
Proof. intros c1 c2. reflexivity. Qed.

Lemma oblivious_modify (f : client_state -> client_state) : oblivious (modify f).
Proof. intros c1 c2. reflexivity. Qed.

Lemma oblivious_callTool server json_parse (name : string) (args : json) :
  oblivious (callTool server json_parse name args).
Proof. intros c1 c2. reflexivity. Qed.

Lemma oblivious_deref (v : json) : oblivious (deref v).
Proof. destruct v; intros c1 c2; reflexivity. Qed.

Lemma oblivious_spread_lines (po : json) : oblivious (spread_lines po).
Proof.
  intros c1 c2. unfold spread_lines.
  destruct (get_field "lines" po) as [[]|]; try reflexivity;
    destruct (js_truthy _); reflexivity.
Qed.

Lemma oblivious_array_lines (po : json) : oblivious (array_lines po).
Proof.
  intros c1 c2. unfold array_lines.
  destruct (get_field "lines" po) as [[]|]; try reflexivity;
    destruct (js_truthy _); reflexivity.
Qed.

Ltac obliv :=
  repeat first
    [ apply oblivious_bind; [|intros]
    | apply oblivious_ret | apply oblivious_throw | apply oblivious_modify
    | apply oblivious_callTool | apply oblivious_deref
    | apply oblivious_spread_lines | apply oblivious_array_lines ].

Lemma bind_modify {A : Type} (f : client_state -> client_state) (k : unit -> M A)
    (c : client_state) :
  bind (modify f) k c = k tt (f c).
Proof. reflexivity. Qed.

Lemma bind_same_state {A B : Type} (m m' : M A) (k : A -> M B) (c : client_state) :
  m c = m' c -> bind m k c = bind m' k c.
Proof. intros H. unfold bind. by rewrite H. Qed.

(** ["update-product"], ["add-po-item"] and ["update-purchase-order"]
    switch the cache off around their read: what they return (including
    the upsert built from the read's [timestamp] and fields) does not
    depend on the client state, whatever the cache holds. *)
Theorem rmw_flows_read_fresh server json_parse createCacheKey to_upsert_item
    (id poId productId : string) (name sku description remarks orderDate expectedDate
     currency : option string) (cost price unitCost : option json) (quantity : Z)
    (c1 c2 : client_state) :
  fst (update_product server json_parse createCacheKey id name sku description cost price c1) =
  fst (update_product server json_parse createCacheKey id name sku description cost price c2) /\
  fst (add_po_item server json_parse createCacheKey poId productId quantity unitCost c1) =
  fst (add_po_item server json_parse createCacheKey poId productId quantity unitCost c2) /\
  fst (update_purchase_order server json_parse createCacheKey to_upsert_item poId remarks
         orderDate expectedDate currency c1) =
  fst (update_purchase_order server json_parse createCacheKey to_upsert_item poId remarks
         orderDate expectedDate currency c2).
Proof.
  unfold update_product, add_po_item, update_purchase_order, disableCache.
  split; [|split]; rewrite !bind_modify.
  - rewrite 2!(bind_same_state (getProduct _ _ _ _)
                 (callTool server json_parse "get_product" (JObj [("productId", JStr id)])))
      by reflexivity.
    revert c1 c2. unfold enableCache, upsertProduct, invalidatePattern.
    apply oblivious_bind; [apply oblivious_callTool|]. intros. obliv.
  - rewrite 2!(bind_same_state (getPurchaseOrder_lines _ _ _ _)
                 (callTool server json_parse "get_purchase_order"
                    (JObj [("purchaseOrderId", JStr poId); ("include", JArr [JStr "lines"])])))
      by reflexivity.
    revert c1 c2. unfold enableCache, upsertPurchaseOrder, invalidatePattern.
    apply oblivious_bind; [apply oblivious_callTool|]. intros. obliv.
  - rewrite 2!(bind_same_state (getPurchaseOrder_lines _ _ _ _)
                 (callTool server json_parse "get_purchase_order"
                    (JObj [("purchaseOrderId", JStr poId); ("include", JArr [JStr "lines"])])))
      by reflexivity.
    revert c1 c2. unfold enableCache, upsertPurchaseOrder, invalidatePattern.
    apply oblivious_bind; [apply oblivious_callTool|]. intros. obliv.
Qed.

(** ** The cache after a write *)

Lemma invalidate_prefix_lookup (p : string) (s : cache_store) (k : string) :
  entries (invalidate_prefix p s) !! k =
  if String.prefix p k then None else entries s !! k.
Proof.
  unfold invalidate_prefix, set_entries. cbn [entries].
  rewrite map_lookup_filter. destruct (entries s !! k) as [e|]; cbn;
    destruct (String.prefix p k); reflexivity.
Qed.

Lemma purge_lookup (ps : list string) (s : cache_store) (k : string) :
  entries (purge ps s) !! k =
  if existsb (fun p => String.prefix p k) ps then None else entries s !! k.
Proof.
  unfold purge. revert s. induction ps as [|p ps IH] using rev_ind; intros s; [reflexivity|].
  rewrite fold_left_app. cbn [fold_left]. rewrite invalidate_prefix_lookup, IH,
    existsb_app. cbn [existsb]. rewrite orb_false_r.
  destruct (String.prefix p k), (existsb (fun p => String.prefix p k) ps); reflexivity.
Qed.

Lemma run_write_eq server json_parse (w : write_op) (data : json) (c : client_state) :
  run_write server json_parse w data c =
  match callTool_response json_parse (server (write_tool w) data) with
  | Ok v => (Ok v, set_store (purge (write_patterns w data) (store c))
                     (log_call (write_tool w) data c))
  | Err e => (Err e, log_call (write_tool w) data c)
  end.
Proof.
  destruct w; cbn [run_write write_tool write_patterns];
  unfold createStockAdjustment, createStockTransfer, createStockCount, upsertProduct,
    upsertVendor, upsertPurchaseOrder, receivePurchaseOrder, unreceivePurchaseOrder,
    bind at 1, callTool;
  destruct (callTool_response json_parse _) as [v|e]; try reflexivity;
  try (destruct (js_truthy (get_field "dryRun" data)); cbn [negb]);
  unfold bind, invalidatePattern, modify, ret, purge, invalidate_prefix,
    set_store, set_entries, log_call; cbn; reflexivity.
Qed.

(** After a successful write, a cache key is gone exactly when it starts
    with one of the write's prefixes; every other entry is kept as it
    was. *)
Theorem write_success_purge_lookup server json_parse (w : write_op) (data v : json)
    (c : client_state) (k : string) :
  callTool_response json_parse (server (write_tool w) data) = Ok v ->
  entries (store (snd (run_write server json_parse w data c))) !! k =
  if existsb (fun p => String.prefix p k) (write_patterns w data) then None
  else entries (store c) !! k.
Proof.
  intros H. rewrite run_write_eq, H. cbn [snd store set_store]. apply purge_lookup.
Qed.

Lemma write_success_purge_lookup_witness :
  callTool_response parse_obj (ok_server (write_tool W_createStockCount) JNull) = Ok (JObj []) /\
  entries (store (snd (run_write ok_server parse_obj W_createStockCount JNull
    (mk_client false (mk_store (<["stock_levels"%string := mk_cache_entry JNull 10]> ∅)
       true 0 0) 0 [])))) !! "stock_levels"%string =
  if existsb (fun p => String.prefix p "stock_levels") (write_patterns W_createStockCount JNull)
  then None
  else entries (mk_store (<["stock_levels"%string := mk_cache_entry JNull 10]> ∅)
                  true 0 0) !! "stock_levels"%string.
Proof.
  split; [reflexivity|].
  apply (write_success_purge_lookup ok_server parse_obj W_createStockCount JNull (JObj [])
           (mk_client false (mk_store (<["stock_levels"%string := mk_cache_entry JNull 10]> ∅)
              true 0 0) 0 [])
           "stock_levels"). reflexivity.
Defined.

Lemma prefix_comparable (p q k : string) :
  String.prefix p k = true -> String.prefix q k = true ->
  String.prefix p q = true \/ String.prefix q p = true.
Proof.
  revert q k. induction p as [|a p IH]; intros q k Hp Hq; [left; by destruct q|].
  destruct q as [|b q]; [right; reflexivity|].
  destruct k as [|d k]; [discriminate|]. cbn in *.
  destruct (ascii_dec a d) as [<-|]; [|discriminate].
  destruct (ascii_dec b a) as [<-|]; [|discriminate].
  destruct (ascii_dec b b) as [_|]; [|congruence]. eauto.
Qed.

Lemma not_prefix_of (q p k : string) :
  String.prefix q k = true -> String.prefix p q = false -> String.prefix q p = false ->
  String.prefix p k = false.
Proof.
  intros Hq H1 H2. destruct (String.prefix p k) eqn:Hp; [|reflexivity].
  destruct (prefix_comparable p q k Hp Hq); congruence.
Qed.

(** No write, successful or not, removes or changes a cache entry whose key
    starts with [serial_index]: the order-based index ([serial_index]) and
    the product-based one ([serial_index_products]) are never purged. *)
Theorem writes_keep_serial_indexes server json_parse (w : write_op) (data : json)
    (c : client_state) (k : string) :
  String.prefix "serial_index" k = true ->
  entries (store (snd (run_write server json_parse w data c))) !! k = entries (store c) !! k.
Proof.
  intros Hk. rewrite run_write_eq.
  destruct (callTool_response json_parse _) as [v|e]; [|reflexivity].
  cbn [snd store set_store]. rewrite purge_lookup.
  replace (existsb _ _) with false; [reflexivity|].
  destruct w; cbn [write_patterns];
    try (destruct (js_truthy (get_field "dryRun" data)));
    cbn [existsb]; repeat (rewrite (not_prefix_of "serial_index" _ k Hk) by reflexivity);
    reflexivity.
Qed.

Lemma writes_keep_serial_indexes_witness :
  String.prefix "serial_index" "serial_index_products" = true /\
  entries (store (snd (run_write ok_server parse_obj W_upsertProduct JNull
    (mk_client false (mk_store (<["serial_index_products"%string := mk_cache_entry JNull 10]> ∅)
       true 0 0) 0 [])))) !! "serial_index_products"%string =
  Some (mk_cache_entry JNull 10).
Proof.
  split; [reflexivity|]. etransitivity.
  - apply (writes_keep_serial_indexes ok_server parse_obj W_upsertProduct JNull
             (mk_client false (mk_store (<["serial_index_products"%string :=
                                             mk_cache_entry JNull 10]> ∅) true 0 0) 0 [])
             "serial_index_products"). reflexivity.
  - reflexivity.
Defined.

(** ** The keys of the order-based index *)

(** A key is in the order-based index exactly when it is the normal form
    of a non-empty serial on one of the indexed orders' pack, pick or
    order lines: no serial is lost, none is invented. *)
Theorem serial_index_domain (orders : list sales_order) (k : string) :
  is_Some (index_orders orders !! k) <->
  exists occ, In occ (order_occurrences orders) /\ normalize occ.2 = k.
Proof.
  rewrite index_orders_flat, index_add_fold, lookup_empty.
  destruct (find (fun occ => String.eqb (normalize occ.2) k) (order_occurrences orders))
    as [[[o l] s]|] eqn:E.
  - split; [intros _ | intros _; eexists; reflexivity].
    exists (o, l, s). apply find_some in E as [Hin Heq]. split; [exact Hin|].
    by apply String.eqb_eq.
  - split; [intros [x Hx]; discriminate|]. intros [occ [Hin Heq]].
    pose proof (find_none _ _ E occ Hin) as Hf. cbn in Hf. rewrite Heq, String.eqb_refl in Hf.
    discriminate.
Qed.

(** [searchSerial] on the order-based index finds every serial visited
    on the indexed orders, under any spelling with the same normal form,
    and answers with the normalised serial. *)
Theorem searchSerial_finds_indexed (orders : list sales_order)
    (occ : sales_order * so_line * string) (query : string) :
  In occ (order_occurrences orders) -> normalize query = normalize occ.2 ->
  exists e, searchSerial_in (index_orders orders) query = Found e /\
            ie_serial e = normalize query.
Proof.
  intros Hin Hq. unfold searchSerial_in.
  rewrite index_orders_flat, index_add_fold, lookup_empty.
  destruct (find (fun o => String.eqb (normalize o.2) (normalize query))
              (order_occurrences orders)) as [[[o l] s]|] eqn:E.
  - eexists. split; reflexivity.
  - exfalso. pose proof (find_none _ _ E occ Hin) as Hf. cbn in Hf.
    rewrite Hq, String.eqb_refl in Hf. discriminate.
Qed.

Lemma searchSerial_finds_indexed_witness :
  In (last_order, mk_line "prod" (Some ["sn-last"%string]), "sn-last"%string)
     (order_occurrences [last_order]) /\
  normalize " Sn-Last" = normalize "sn-last" /\
  exists e, searchSerial_in (index_orders [last_order]) " Sn-Last" = Found e /\
            ie_serial e = normalize " Sn-Last".
Proof.
  split; [left; reflexivity|]. split; [reflexivity|].
  apply (searchSerial_finds_indexed [last_order]
           (last_order, mk_line "prod" (Some ["sn-last"%string]), "sn-last"%string) " Sn-Last");
    [left; reflexivity | reflexivity].
Defined.

(** ** [getSalesOrderSerials]: count and uniqueness *)

Lemma dedup_fold_NoDup (l acc : list string) :
  NoDup acc ->
  NoDup (fold_left (fun acc s => if existsb (String.eqb s) acc then acc else acc ++ [s]) l acc).
Proof.
  revert acc. induction l as [|s l IH]; intros acc Hacc; [exact Hacc|]. cbn.
  apply IH. destruct (existsb (String.eqb s) acc) eqn:E; [exact Hacc|].
  apply NoDup_app. split_and!; [exact Hacc | | apply NoDup_singleton].
  intros x Hx Hin. apply list_elem_of_singleton in Hin. subst x.
  apply list_elem_of_In, existsb_eqb_In in Hx. congruence.
Qed.

(** [serialCount] of [getSalesOrderSerials] is the number of distinct raw
    serial strings of the order, and no two returned records share a
    serial. *)
Theorem salesOrderSerials_count_distinct (order : sales_order) :
  let r := getSalesOrderSerials_of order in
  os_serialCount r = length (os_serials r) /\
  map sr_serial (os_serials r) = dedup_first (map (fun occ => occ.2) (source_occurrences order)) /\
  NoDup (map sr_serial (os_serials r)).
Proof.
  cbv zeta.
  assert (Hs : os_serials (getSalesOrderSerials_of order) =
               map (expected_rec (source_occurrences order))
                 (dedup_first (map (fun occ => occ.2) (source_occurrences order)))).
  { rewrite <- serialMap_fold. unfold getSalesOrderSerials_of, source_occurrences. cbn.
    rewrite !extractSerials_flat, !fold_left_app. reflexivity. }
  assert (Hm : map sr_serial (os_serials (getSalesOrderSerials_of order)) =
               dedup_first (map (fun occ => occ.2) (source_occurrences order))).
  { rewrite Hs, map_map. cbn. apply map_id. }
  split; [reflexivity|]. split; [exact Hm|].
  rewrite Hm. apply dedup_fold_NoDup. constructor.
Qed.

(** ** Pagination on full pages *)

Lemma fetch_orders_full_pages list_sales_orders (fuel : nat) (status : string) (m skip : nat)
    (acc : list sales_order) :
  (forall sk, length (list_sales_orders status pageSize sk) = pageSize) ->
  length acc < m -> m <= length acc + pageSize * fuel ->
  option_map (@length sales_order)
    (fetch_orders list_sales_orders fuel status (Some m) skip acc) = Some m.
Proof.
  intros Hfull. revert skip acc.
  induction fuel as [|fuel IH]; intros skip acc Hlt Hle; [lia|].
  cbn [fetch_orders]. rewrite Hfull. cbn [Nat.ltb Nat.leb pageSize].
  destruct m as [|m']; [lia|]. cbn [cap_active].
  rewrite length_app, Hfull.
  destruct (Nat.leb_spec (S m') (length acc + pageSize)) as [H|H].
  - cbn. rewrite length_firstn, length_app, Hfull. f_equal. lia.
  - apply IH; rewrite ?length_app, ?Hfull; cbn [pageSize] in *; lia.
Qed.

(** When every page of [list_sales_orders] is full, [buildSerialIndex]
    with a positive [limit] indexes exactly [limit] orders (given pages
    enough to reach it): the cap only fails when a short page ends the
    loop first. *)
Theorem buildSerialIndex_full_pages_exact list_sales_orders (fuel : nat)
    (status : option string) (m : nat) :
  (forall sk, length (list_sales_orders (status_or_default status) pageSize sk) = pageSize) ->
  0 < m -> m <= pageSize * fuel ->
  option_map (@length sales_order)
    (buildSerialIndex_orders list_sales_orders fuel status (Some m)) = Some m.
Proof.
  intros Hfull Hm Hle. unfold buildSerialIndex_orders.
  apply fetch_orders_full_pages; [exact Hfull | cbn; lia | unfold pageSize in *; cbn; lia].
Qed.

Lemma buildSerialIndex_full_pages_exact_witness :
  option_map (@length sales_order)
    (buildSerialIndex_orders (fun _ _ _ => repeat plain_order 100) 2 None (Some 150)) =
  Some 150.
Proof.
  apply (buildSerialIndex_full_pages_exact (fun _ _ _ => repeat plain_order 100) 2 None 150);
    [intros sk; reflexivity | lia | cbn; lia].
Defined.

(** ** What the PO write commands do to the client *)

Lemma receivePurchaseOrder_as_write server json_parse :
  receivePurchaseOrder server json_parse = run_write server json_parse W_receivePurchaseOrder.
Proof. reflexivity. Qed.

Lemma upsertPurchaseOrder_as_write server json_parse :
  upsertPurchaseOrder server json_parse = run_write server json_parse W_upsertPurchaseOrder.
Proof. reflexivity. Qed.

Ltac no_call_frame :=
  split; [exists []; rewrite app_nil_r; split; [reflexivity | split; [cbn; lia | constructor]]
         | reflexivity].

Ltac one_call_frame :=
  split; [eexists; split; [reflexivity | split; [cbn; lia | repeat constructor]]
         | reflexivity].

(** ["receive-po-items"] makes at most one remote call, a
    [receive_purchase_order], and changes the cache store only when it
    succeeds, by the [purchase_orders], [purchase_order:] and [stock]
    purges: argument errors, a rejected [--items] text and a remote error
    all leave the store as it was. *)
Theorem receive_po_items_frame server json_parse (purchaseOrderId : string)
    (receiveAll : option bool) (items : option string) (allowOverReceive : option bool)
    (c : client_state) :
  let '(r, c') := receive_po_items server json_parse purchaseOrderId receiveAll items
                    allowOverReceive c in
  (exists l, calls c' = calls c ++ l /\ length l <= 1 /\
             Forall (fun nc => nc.1 = "receive_purchase_order"%string) l) /\
  store c' = match r with
             | Ok _ => purge ["purchase_orders"; "purchase_order:"; "stock"] (store c)
             | Err _ => store c
             end.
Proof.
  unfold receive_po_items.
  destruct (negb (js_truthy (bool_opt receiveAll)) && negb (js_truthy (str items)));
    [no_call_frame|].
  destruct (js_truthy (bool_opt receiveAll) && js_truthy (str items)); [no_call_frame|].
  unfold bind at 1.
  pose proof (parse_opt_state json_parse items c) as E.
  destruct (parse_opt json_parse items c) as [[parsedItems|e] c0]; cbn in E; subst c0;
    [|no_call_frame].
  rewrite receivePurchaseOrder_as_write, run_write_eq.
  destruct (callTool_response json_parse _); one_call_frame.
Qed.

(** ["create-purchase-order"] makes at most one remote call, an
    [upsert_purchase_order], and changes the cache store only when it
    succeeds, by the [purchase_orders] and [purchase_order:] purges: an
    [--items] text [JSON.parse] rejects and a remote error leave the store
    as it was. *)
Theorem create_purchase_order_frame server json_parse (vendorId : string)
    (orderNumber orderDate expectedDate locationId : option string) (items : string)
    (currency remarks : option string) (c : client_state) :
  let '(r, c') := create_purchase_order server json_parse vendorId orderNumber orderDate
                    expectedDate locationId items currency remarks c in
  (exists l, calls c' = calls c ++ l /\ length l <= 1 /\
             Forall (fun nc => nc.1 = "upsert_purchase_order"%string) l) /\
  store c' = match r with
             | Ok _ => purge ["purchase_orders"; "purchase_order:"] (store c)
             | Err _ => store c
             end.
Proof.
  unfold create_purchase_order.
  destruct (json_parse items) as [parsedItems|]; [|no_call_frame].
  rewrite upsertPurchaseOrder_as_write, run_write_eq.
  destruct (callTool_response json_parse _); one_call_frame.
Qed.
